(** * Smart power grid demand-response coordinator

    A shallow embedding of [smartGrid.cpp]: the request model, the
    substation model, the maintenance state machine and the scheduler of
    [GridController], followed by the properties proved about them.

    Conventions of the embedding.
    - In the model of the grid a [double] quantity of megawatts is an exact
      rational ([Q]).  What is proved there is about the order of the
      attempts, the marking of the requests, the fields that an operation
      leaves alone, and bounds that rounding to nearest preserves.
    - What the substation methods store and compare is treated in
      [SubstationF64], where a [double] is an IEEE 754 binary64 number
      ([float]) with its rounding, its infinities and its NaN.
    - A [time_t] is an integer ([Z]); the wall clock read by [time(nullptr)]
      is a parameter [now] of the operation that reads it.
    - A [DemandRequest*] is an address into a heap of request objects.  The
      controller keeps addresses, so a state written through a pointer is
      seen by every holder of that pointer.  An address with no object
      (undefined behaviour in C++) reads as a fresh [CREATED] object.
    - [std::priority_queue] is modelled by its contract: [top] is an element
      that the comparator orders below no other element.  Which one it is
      among equivalent elements is left open by C++; the model scans the
      underlying sequence and keeps the earliest such element. *)

From Stdlib Require Import ZArith QArith Qminmax Lia Lqa Floats.
From stdpp Require Import gmap strings list sorting.

Local Open Scope Z_scope.

(** Addresses of heap-allocated request objects. *)
Abbreviation addr := positive (only parsing).

(** ** DemandRequest *)

Module DemandRequest.

Inductive State := CREATED | QUEUED | ALLOCATED | SHED | COMPLETED.

(** The dynamic class of a request object: it fixes [priority()]. *)
Inductive Kind := Residential | Commercial | Industrial.

Record t := mk {
  consumerID : string;
  megawatts : Q;
  timestamp : Z;
  state : State;
  kind : Kind
}.

#[global] Instance State_eq_dec : EqDecision State.
Proof. solve_decision. Defined.

#[global] Instance Kind_eq_dec : EqDecision Kind.
Proof. solve_decision. Defined.

(** The three constructors; [now] is the value of [time(nullptr)]. *)
Definition ResidentialRequest (now : Z) (c : string) (m : Q) : t :=
  mk c m now CREATED Residential.
Definition CommercialRequest (now : Z) (c : string) (m : Q) : t :=
  mk c m now CREATED Commercial.
Definition IndustrialRequest (now : Z) (c : string) (m : Q) : t :=
  mk c m now CREATED Industrial.

Definition priority (r : t) : Z :=
  match kind r with
  | Residential => 1
  | Commercial => 2
  | Industrial => 3
  end.

(** The assignment [req->state = s]. *)
Definition setState (s : State) (r : t) : t :=
  mk (consumerID r) (megawatts r) (timestamp r) s (kind r).

#[global] Instance t_inhabited : Inhabited t :=
  populate (mk "" 0%Q 0 CREATED Residential).

End DemandRequest.

(** [CompareDemand::operator()]: [true] when [a] is ordered below [b]. *)
Definition CompareDemand (a b : DemandRequest.t) : bool :=
  if negb (DemandRequest.priority a =? DemandRequest.priority b)
  then DemandRequest.priority a <? DemandRequest.priority b
  else DemandRequest.timestamp a >? DemandRequest.timestamp b.

(** ** Substation

    The substation of the grid model, with exact amounts; [SubstationF64]
    below has the rounded ones. *)

Module Substation.

Record t := mk {
  id : string;
  capacityMW : Q;
  usedMW : Q;
  online : bool
}.

(** The constructor: nothing used, online. *)
Definition new (i : string) (cap : Q) : t := mk i cap 0%Q true.

Definition available (s : t) : Q :=
  if online s then (capacityMW s - usedMW s)%Q else 0%Q.

(** [allocate] returns the substation after the call and the result. *)
Definition allocate (mw : Q) (s : t) : t * bool :=
  if Qle_bool mw (available s)
  then (mk (id s) (capacityMW s) (usedMW s + mw)%Q (online s), true)
  else (s, false).

Definition deallocate (mw : Q) (s : t) : t :=
  mk (id s) (capacityMW s) (Qmax 0 (usedMW s - mw))%Q (online s).

Definition setOnline (b : bool) (s : t) : t :=
  mk (id s) (capacityMW s) (usedMW s) b.

(** The capacity invariant of the data model: [0 <= used <= capacity]. *)
Definition withinCapacity (s : t) : Prop :=
  (0 <= usedMW s)%Q ∧ (usedMW s <= capacityMW s)%Q.

End Substation.

(** ** Substation in double arithmetic

    The same three methods with the arithmetic that the compiled program
    performs on [capacityMW] and [usedMW]: a [float] is an IEEE 754 binary64
    number, every [+] and [-] rounds its exact result to the nearest
    double, and a comparison with a NaN is false. *)

Module SubstationF64.

Record t := mk {
  id : string;
  capacityMW : float;
  usedMW : float;
  online : bool
}.

(** The constructor: nothing used, online. *)
Definition new (i : string) (cap : float) : t := mk i cap 0%float true.

(** [std::max(a, b)]: [b] when [a < b], otherwise [a]. *)
Definition max (a b : float) : float := if (a <? b)%float then b else a.

Definition available (s : t) : float :=
  if online s then (capacityMW s - usedMW s)%float else 0%float.

(** [allocate] returns the substation after the call and the result; the
    guard [available() >= mw] is [mw <= available()]. *)
Definition allocate (mw : float) (s : t) : t * bool :=
  if (mw <=? available s)%float
  then (mk (id s) (capacityMW s) (usedMW s + mw)%float (online s), true)
  else (s, false).

Definition deallocate (mw : float) (s : t) : t :=
  mk (id s) (capacityMW s) (max 0%float (usedMW s - mw)%float) (online s).

Definition setOnline (b : bool) (s : t) : t :=
  mk (id s) (capacityMW s) (usedMW s) b.

End SubstationF64.

(** The rational number that a finite double stands for (0 for an infinity
    or a NaN). *)
Definition valueOf (x : float) : Q :=
  match Prim2SF x with
  | S754_finite s m e =>
      (((if s then Z.neg m else Z.pos m) # 1)
       * (if (0 <=? e)%Z then (2 ^ e) # 1 else 1 # (2 ^ Z.to_pos (- e))))%Q
  | _ => 0%Q
  end.

(** ** MaintenanceJob *)

Module MaintenanceJob.

Inductive State := SCHEDULED | IN_PROGRESS | DONE.

Record t := mk {
  substationID : string;
  startTime : Z;
  endTime : Z;
  state : State
}.

#[global] Instance State_eq_dec : EqDecision State.
Proof. solve_decision. Defined.

(** The constructor. *)
Definition new (sid : string) (st et : Z) : t := mk sid st et SCHEDULED.

Definition setState (s : State) (j : t) : t :=
  mk (substationID j) (startTime j) (endTime j) s.

(** Two [if]s in sequence: the second sees the state the first wrote. *)
Definition advanceState (now : Z) (j : t) : t :=
  let j1 :=
    if bool_decide (state j = SCHEDULED) && (now >=? startTime j)
    then setState IN_PROGRESS j else j in
  if bool_decide (state j1 = IN_PROGRESS) && (now >=? endTime j1)
  then setState DONE j1 else j1.

(** Position of a state on the path Scheduled, InProgress, Done. *)
Definition rank (s : State) : Z :=
  match s with SCHEDULED => 0 | IN_PROGRESS => 1 | DONE => 2 end.

End MaintenanceJob.

(** ** The pending ordering: [std::priority_queue] over a vector

    The container is the sequence of the queued elements in the order they
    were pushed.  [top] is an element that [comp] orders below no element of
    the container, and [pop] removes one occurrence of it. *)

Module PQ.
Section pq.
Context {A : Type} `{EqDecision A} (comp : A → A → bool).

(** Scan keeping the current best; replaced only by a strictly better one. *)
Fixpoint best (m : A) (q : list A) : A :=
  match q with
  | [] => m
  | x :: q' => best (if comp m x then x else m) q'
  end.

(** [top()]; [None] stands for [empty()]. *)
Definition top (q : list A) : option A :=
  match q with
  | [] => None
  | x :: q' => Some (best x q')
  end.

Fixpoint remove1 (m : A) (q : list A) : list A :=
  match q with
  | [] => []
  | x :: q' => if decide (x = m) then q' else x :: remove1 m q'
  end.

(** [pop()]: removes the element [top()] returns. *)
Definition pop (q : list A) : list A :=
  match top q with
  | None => q
  | Some m => remove1 m q
  end.

Definition push (x : A) (q : list A) : list A := q ++ [x].

End pq.
End PQ.

(** ** GridController *)

Module GridController.

Record t := mk {
  demandQ : list addr;
  substations : list Substation.t;
  maintenanceList : list MaintenanceJob.t
}.

Definition new : t := mk [] [] [].

(** The comparator of [demandQ] on pointers: it reads both objects. *)
Definition comp (σ : gmap addr DemandRequest.t) (a b : addr) : bool :=
  CompareDemand (σ !!! a) (σ !!! b).

(** [req->state = s] in the heap. *)
Definition writeState (req : addr) (s : DemandRequest.State)
    (σ : gmap addr DemandRequest.t) : gmap addr DemandRequest.t :=
  <[req := DemandRequest.setState s (σ !!! req)]> σ.

Definition addSubstation (i : string) (cap : Q) (g : t) : t :=
  mk (demandQ g) (substations g ++ [Substation.new i cap]) (maintenanceList g).

Definition receiveDemand (req : addr)
    (σ : gmap addr DemandRequest.t) (g : t) : gmap addr DemandRequest.t * t :=
  (writeState req DemandRequest.QUEUED σ,
   mk (PQ.push req (demandQ g)) (substations g) (maintenanceList g)).

Definition scheduleMaintenance (sid : string) (start end_ : Z) (g : t) : t :=
  mk (demandQ g) (substations g)
     (maintenanceList g ++ [MaintenanceJob.new sid start end_]).

(** *** runScheduler, step 1: maintenance jobs and the online flags *)

(** The inner loop over the substations for one job. *)
Definition applyJob (job : MaintenanceJob.t) (sub : Substation.t) : Substation.t :=
  if decide (Substation.id sub = MaintenanceJob.substationID job)
  then Substation.setOnline
         (negb (bool_decide (MaintenanceJob.state job = MaintenanceJob.IN_PROGRESS)))
         sub
  else sub.

Fixpoint updateMaintenance (now : Z) (jobs : list MaintenanceJob.t)
    (subs : list Substation.t) : list MaintenanceJob.t * list Substation.t :=
  match jobs with
  | [] => ([], subs)
  | job :: rest =>
      let job' := MaintenanceJob.advanceState now job in
      let '(rest', subs') := updateMaintenance now rest (applyJob job' <$> subs) in
      (job' :: rest', subs')
  end.

(** The job whose evaluation writes the flag of the substation [sid] last:
    the last job of the list that names it. *)
Definition lastJobFor (sid : string) (jobs : list MaintenanceJob.t)
    : option MaintenanceJob.t :=
  last (filter (λ job, MaintenanceJob.substationID job = sid) jobs).

(** *** runScheduler, step 2: allocate or shed every pending request *)

(** The loop over the substations for one request, left at the first
    substation whose [allocate] succeeds. *)
Fixpoint tryAllocate (mw : Q) (subs : list Substation.t)
    : list Substation.t * bool :=
  match subs with
  | [] => ([], false)
  | sub :: rest =>
      let '(sub', ok) := Substation.allocate mw sub in
      if ok then (sub' :: rest, true)
      else let '(rest', allocated) := tryAllocate mw rest in
           (sub' :: rest', allocated)
  end.

(** One turn of the [while] loop for the request [req] just popped. *)
Definition attempt (req : addr) (σ : gmap addr DemandRequest.t)
    (subs : list Substation.t) : gmap addr DemandRequest.t * list Substation.t :=
  let '(subs', allocated) :=
    tryAllocate (DemandRequest.megawatts (σ !!! req)) subs in
  (writeState req
     (if allocated then DemandRequest.ALLOCATED else DemandRequest.SHED) σ,
   subs').

(** The state of the [while (!demandQ.empty())] loop. *)
Record Pass := mkPass {
  heap : gmap addr DemandRequest.t;
  pending : list addr;
  subs : list Substation.t;
  temp : list addr
}.

(** The loop; [fuel] bounds the number of turns, [None] means the bound
    was reached with requests still pending. *)
Fixpoint allocLoop (fuel : nat) (st : Pass) : option Pass :=
  match PQ.top (comp (heap st)) (pending st) with
  | None => Some st
  | Some req =>
      match fuel with
      | O => None
      | S fuel' =>
          let q' := PQ.pop (comp (heap st)) (pending st) in
          let '(σ', subs') := attempt req (heap st) (subs st) in
          allocLoop fuel' (mkPass σ' q' subs' (temp st ++ [req]))
      end
  end.

(** *** runScheduler, step 3: re-enqueue what is still QUEUED *)

Fixpoint requeue (σ : gmap addr DemandRequest.t) (temp : list addr)
    (q : list addr) : list addr :=
  match temp with
  | [] => q
  | r :: temp' =>
      requeue σ temp'
        (if decide (DemandRequest.state (σ !!! r) = DemandRequest.QUEUED)
         then PQ.push r q else q)
  end.

(** The turns of the allocation loop for the requests of [order], in that
    order, from the heap [st.1] and the substations [st.2]. *)
Definition attempts (order : list addr)
    (st : gmap addr DemandRequest.t * list Substation.t)
    : gmap addr DemandRequest.t * list Substation.t :=
  foldl (λ st req, attempt req st.1 st.2) st order.

(** One scheduling cycle at time [now]; [None] only if the allocation loop
    did not finish within one turn per pending request. *)
Definition runScheduler (now : Z) (σ : gmap addr DemandRequest.t) (g : t)
    : option (gmap addr DemandRequest.t * t) :=
  let '(jobs', subs1) :=
    updateMaintenance now (maintenanceList g) (substations g) in
  match allocLoop (length (demandQ g)) (mkPass σ (demandQ g) subs1 []) with
  | None => None
  | Some st =>
      Some (heap st,
            mk (requeue (heap st) (temp st) (pending st)) (subs st) jobs')
  end.

(** The state of a cycle between its steps 2 and 3, where [temp] holds the
    requests in the order in which they were popped and attempted. *)
Definition allocationPass (now : Z) (σ : gmap addr DemandRequest.t) (g : t)
    : option Pass :=
  allocLoop (length (demandQ g))
    (mkPass σ (demandQ g)
       (updateMaintenance now (maintenanceList g) (substations g)).2 []).

End GridController.

(** ** Scenarios *)

Module Scenario.
Import GridController.

(** Substations S01 (50 MW) and S02 (40 MW); an Industrial request of
    30 MW, then a Residential request of 45 MW, both received before any
    cycle. *)
Definition grid2 : GridController.t :=
  addSubstation "S02" 40 (addSubstation "S01" 50 new).

Definition heap2 : gmap addr DemandRequest.t :=
  <[2%positive := DemandRequest.ResidentialRequest 101 "C2" 45]>
    (<[1%positive := DemandRequest.IndustrialRequest 100 "C1" 30]> ∅).

Definition submitted2 : gmap addr DemandRequest.t * GridController.t :=
  let w := receiveDemand 1 heap2 grid2 in receiveDemand 2 w.1 w.2.

(** One substation S01 (50 MW) and one Residential request of -5 MW, as
    the command [report C1 res -5] creates it. *)
Definition grid1 : GridController.t := addSubstation "S01" 50 new.



(** S01 (50 MW) with two maintenance windows, [0, 3600) and
    [7200, 10800), as the commands [maintenance S01 0] and
    [maintenance S01 7200] create them at time 0; one Industrial request
    of 30 MW is pending. *)
Definition gridMaint : GridController.t :=
  scheduleMaintenance "S01" 7200 10800 (scheduleMaintenance "S01" 0 3600 grid1).

Definition heapMaint : gmap addr DemandRequest.t :=
  <[1%positive := DemandRequest.IndustrialRequest 5 "C1" 30]> ∅.

Definition submittedMaint : gmap addr DemandRequest.t * GridController.t :=
  receiveDemand 1 heapMaint gridMaint.

(** S01 (20 MW); a Commercial request of 10 MW created at 100, a Commercial
    request of 15 MW created at 101 and an Industrial request of 5 MW
    created at 102, received in the order second, first, third. *)
Definition grid20 : GridController.t := addSubstation "S01" 20 new.

Definition heapMixed : gmap addr DemandRequest.t :=
  <[3%positive := DemandRequest.IndustrialRequest 102 "C3" 5]>
    (<[2%positive := DemandRequest.CommercialRequest 101 "C2" 15]>
       (<[1%positive := DemandRequest.CommercialRequest 100 "C1" 10]> ∅)).

Definition submittedMixed : gmap addr DemandRequest.t * GridController.t :=
  let w := receiveDemand 2 heapMixed grid20 in
  let w := receiveDemand 1 w.1 w.2 in
  receiveDemand 3 w.1 w.2.

End Scenario.

(** ** Substations that differ in one field *)

(** Two substations that differ at most in [used]. *)
Definition sameButUsed (s' s : Substation.t) : Prop :=
  Substation.id s' = Substation.id s
  ∧ Substation.capacityMW s' = Substation.capacityMW s
  ∧ Substation.online s' = Substation.online s.

(** Two substations that differ at most in the online flag. *)
Definition sameButOnline (s' s : Substation.t) : Prop :=
  Substation.id s' = Substation.id s
  ∧ Substation.capacityMW s' = Substation.capacityMW s
  ∧ Substation.usedMW s' = Substation.usedMW s.

(** ** GridController::showStatus

    The method prints three blocks of lines; the model keeps what each line
    shows and leaves the formatting of the text out. *)

Module StatusReport.
Import GridController.

Record t := mk {
  substationLines : list (string * Q * Q * bool);
  demandLines : list (string * Q * Z);
  maintenanceLines : list (string * Z)
}.

(** Identifier, used and total megawatts, and whether ONLINE is printed. *)
Definition substationLine (s : Substation.t) : string * Q * Q * bool :=
  (Substation.id s, Substation.usedMW s, Substation.capacityMW s,
   Substation.online s).

(** Consumer, megawatts and [pr=]. *)
Definition demandLine (r : DemandRequest.t) : string * Q * Z :=
  (DemandRequest.consumerID r, DemandRequest.megawatts r,
   DemandRequest.priority r).

(** Substation and the state, printed as the number of the enumerator. *)
Definition maintenanceLine (m : MaintenanceJob.t) : string * Z :=
  (MaintenanceJob.substationID m, MaintenanceJob.rank (MaintenanceJob.state m)).

(** The loop over the copy [copyQ] of the queue; [shown] collects the
    requests in the order of their lines. *)
Fixpoint copyLoop (fuel : nat) (σ : gmap addr DemandRequest.t)
    (copyQ shown : list addr) : option (list addr) :=
  match PQ.top (comp σ) copyQ with
  | None => Some shown
  | Some r =>
      match fuel with
      | O => None
      | S fuel' => copyLoop fuel' σ (PQ.pop (comp σ) copyQ) (shown ++ [r])
      end
  end.

Definition showStatus (σ : gmap addr DemandRequest.t) (g : GridController.t)
    : option t :=
  match copyLoop (length (demandQ g)) σ (demandQ g) [] with
  | None => None
  | Some shown =>
      Some (mk (substationLine <$> substations g)
               ((λ r, demandLine (σ !!! r)) <$> shown)
               (maintenanceLine <$> maintenanceList g))
  end.

End StatusReport.

(** ** main: the command loop

    A line is taken after [istringstream] has split it: the command word,
    and the operands that [iss >> cid >> type >> mw] and
    [iss >> sid >> delaySec] extract from the rest of it ([None] where the
    extraction fails).  Each line comes with the value the clock has while
    it is handled.  Of the output the model keeps which message is printed,
    not its text; the banner and the prompt are left out. *)

Module Cli.
Import GridController.

Record Line := mkLine {
  cmd : string;
  reportOperands : option (string * string * Q);
  maintenanceOperands : option (string * Z)
}.

Inductive Reply :=
| Goodbye
| HelpText
| UsageReport
| DemandRecorded (cid : string)
| InvalidType
| BalancingComplete
| UsageMaintenance
| MaintenanceScheduled (sid : string) (delaySec : Z)
| StatusShown (s : StatusReport.t)
| NoReply
| UnknownCommand.

(** The request objects on the heap and the controller. *)
Record World := mkWorld {
  objects : gmap addr DemandRequest.t;
  grid : GridController.t
}.

(** The three substations [main] sets up. *)
Definition initialGrid : GridController.t :=
  addSubstation "S03" 60 (addSubstation "S02" 40 (addSubstation "S01" 50 new)).

(** The object that [report] constructs for a type word, if any. *)
Definition makeRequest (now : Z) (cid type : string) (mw : Q)
    : option DemandRequest.t :=
  if decide (type = "res") then Some (DemandRequest.ResidentialRequest now cid mw)
  else if decide (type = "com") then Some (DemandRequest.CommercialRequest now cid mw)
  else if decide (type = "ind") then Some (DemandRequest.IndustrialRequest now cid mw)
  else None.

(** What one turn of the loop does: leave the loop, or go on in a world. *)
Inductive Outcome :=
| Break (r : Reply)
| Continue (r : Reply) (w : World).

(** One turn of the loop for the line [l], read at time [now].  [new] puts
    the object at an address that holds no object. *)
Definition step (now : Z) (l : Line) (w : World) : option Outcome :=
  if decide (cmd l = "exit") then Some (Break Goodbye)
  else if decide (cmd l = "help") then Some (Continue HelpText w)
  else if decide (cmd l = "report") then
    match reportOperands l with
    | None => Some (Continue UsageReport w)
    | Some (cid, type, mw) =>
        match makeRequest now cid type mw with
        | Some d =>
            let a := fresh (dom (objects w)) in
            let '(σ', g') := receiveDemand a (<[a := d]> (objects w)) (grid w) in
            Some (Continue (DemandRecorded cid) (mkWorld σ' g'))
        | None => Some (Continue InvalidType w)
        end
    end
  else if decide (cmd l = "balance") then
    match runScheduler now (objects w) (grid w) with
    | None => None
    | Some (σ', g') => Some (Continue BalancingComplete (mkWorld σ' g'))
    end
  else if decide (cmd l = "maintenance") then
    match maintenanceOperands l with
    | None => Some (Continue UsageMaintenance w)
    | Some (sid, delaySec) =>
        Some (Continue (MaintenanceScheduled sid delaySec)
                (mkWorld (objects w)
                   (scheduleMaintenance sid (now + delaySec)
                      (now + delaySec + 3600) (grid w))))
    end
  else if decide (cmd l = "status") then
    match StatusReport.showStatus (objects w) (grid w) with
    | None => None
    | Some s => Some (Continue (StatusShown s) w)
    end
  else if decide (cmd l = "") then Some (Continue NoReply w)
  else Some (Continue UnknownCommand w).

(** The loop over the lines of the input; the end of the list is the end of
    the input.  The result is the messages printed and the last world. *)
Fixpoint session (inputs : list (Z * Line)) (w : World)
    : option (list Reply * World) :=
  match inputs with
  | [] => Some ([], w)
  | (now, l) :: rest =>
      match step now l w with
      | None => None
      | Some (Break r) => Some ([r], w)
      | Some (Continue r w') =>
          match session rest w' with
          | None => None
          | Some (rs, w'') => Some (r :: rs, w'')
          end
      end
  end.

Definition main (inputs : list (Z * Line)) : option (list Reply * World) :=
  session inputs (mkWorld ∅ initialGrid).

(** What holds of the world at every turn of [main]: the three substations
    keep their names and capacities; the queue holds each address once; a
    queued address holds a Queued object; every other object is Allocated
    or Shed. *)
Definition sound (w : World) : Prop :=
  Substation.id <$> substations (grid w) = ["S01"; "S02"; "S03"]
  ∧ Substation.capacityMW <$> substations (grid w) = [50; 40; 60]%Q
  ∧ NoDup (demandQ (grid w))
  ∧ (∀ a : addr, a ∈ demandQ (grid w) →
       ∃ r, objects w !! a = Some r ∧ DemandRequest.state r = DemandRequest.QUEUED)
  ∧ (∀ (a : addr) (r : DemandRequest.t),
       objects w !! a = Some r → a ∉ demandQ (grid w) →
       DemandRequest.state r = DemandRequest.ALLOCATED
       ∨ DemandRequest.state r = DemandRequest.SHED).

(** The substations are within capacity and every pending request asks for
    at least 0 MW. *)
Definition withinLimits (w : World) : Prop :=
  Forall Substation.withinCapacity (substations (grid w))
  ∧ ∀ a : addr, a ∈ demandQ (grid w) →
      (0 <= DemandRequest.megawatts (objects w !!! a))%Q.

(** No line of the input carries a negative amount for [report]. *)
Definition reportsAtLeastZero (inputs : list (Z * Line)) : Prop :=
  Forall (λ i : Z * Line,
            match reportOperands i.2 with
            | Some (_, _, mw) => (0 <= mw)%Q
            | None => True
            end) inputs.

End Cli.

(** ** Further scenarios *)

Module Examples.
Import GridController.

(** S01 (50 MW) with one maintenance window [0, 3600) and one Industrial
    request of 30 MW pending. *)
Definition maintained : gmap addr DemandRequest.t * GridController.t :=
  receiveDemand 1 Scenario.heapMaint
    (scheduleMaintenance "S01" 0 3600 Scenario.grid1).

End Examples.

(** * Properties *)

(** ** Substation *)

Section substation_facts.
Import Substation.
Implicit Types (s : Substation.t) (mw : Q).

Lemma allocate_true s mw :
  (mw <= available s)%Q →
  allocate mw s = (mk (id s) (capacityMW s) (usedMW s + mw)%Q (online s), true).
Proof.
  intros Hle. unfold allocate.
  by rewrite (proj2 (Qle_bool_iff _ _) Hle).
Qed.

Lemma allocate_false s mw :
  ¬ (mw <= available s)%Q → allocate mw s = (s, false).
Proof.
  intros Hlt. unfold allocate.
  destruct (Qle_bool mw (available s)) eqn:E; [|done].
  by apply Qle_bool_iff in E.
Qed.

Lemma allocate_cases s mw :
  ((mw <= available s)%Q ∧
    allocate mw s = (mk (id s) (capacityMW s) (usedMW s + mw)%Q (online s), true))
  ∨ (¬ (mw <= available s)%Q ∧ allocate mw s = (s, false)).
Proof.
  destruct (Qlt_le_dec (available s) mw) as [Hlt|Hle].
  - right. split; [by apply Qlt_not_le|]. apply allocate_false. by apply Qlt_not_le.
  - left. split; [done|]. by apply allocate_true.
Qed.

End substation_facts.

(** ** MaintenanceJob *)

(** C8. [advanceState now] takes a Scheduled job whose start has come to
    InProgress, and in the same call on to Done when its end has come too;
    it takes an InProgress job whose end has come to Done; on a Done job it
    is the identity for every [now]; it never moves a state backwards and
    never touches the other fields. *)
Theorem C8_advanceState (j : MaintenanceJob.t) (now : Z) :
  (MaintenanceJob.state j = MaintenanceJob.SCHEDULED →
     MaintenanceJob.startTime j ≤ now → now < MaintenanceJob.endTime j →
     MaintenanceJob.state (MaintenanceJob.advanceState now j)
       = MaintenanceJob.IN_PROGRESS)
  ∧ (MaintenanceJob.state j = MaintenanceJob.SCHEDULED →
     MaintenanceJob.startTime j ≤ now → MaintenanceJob.endTime j ≤ now →
     MaintenanceJob.state (MaintenanceJob.advanceState now j)
       = MaintenanceJob.DONE)
  ∧ (MaintenanceJob.state j = MaintenanceJob.IN_PROGRESS →
     MaintenanceJob.endTime j ≤ now →
     MaintenanceJob.state (MaintenanceJob.advanceState now j)
       = MaintenanceJob.DONE)
  ∧ (MaintenanceJob.state j = MaintenanceJob.DONE →
     MaintenanceJob.advanceState now j = j)
  ∧ MaintenanceJob.rank (MaintenanceJob.state j)
      ≤ MaintenanceJob.rank (MaintenanceJob.state (MaintenanceJob.advanceState now j))
  ∧ MaintenanceJob.substationID (MaintenanceJob.advanceState now j)
      = MaintenanceJob.substationID j
  ∧ MaintenanceJob.startTime (MaintenanceJob.advanceState now j)
      = MaintenanceJob.startTime j
  ∧ MaintenanceJob.endTime (MaintenanceJob.advanceState now j)
      = MaintenanceJob.endTime j.
Proof.
  destruct j as [sid st et s]. unfold MaintenanceJob.advanceState. simpl.
  rewrite !Z.geb_leb.
  destruct s; simpl;
    destruct (Z.leb_spec st now); simpl;
    destruct (Z.leb_spec et now); simpl;
    repeat split; intros; try done; try lia.
Qed.

Lemma C8_advanceState_witness :
  MaintenanceJob.state
    (MaintenanceJob.advanceState 10 (MaintenanceJob.new "S01" 0 5))
  = MaintenanceJob.DONE.
Proof.
  apply (proj1 (proj2 (C8_advanceState (MaintenanceJob.new "S01" 0 5) 10)));
    [reflexivity | simpl; lia | simpl; lia].
Defined.

(** ** The heap of requests *)

Section heap_facts.
Import GridController.
Implicit Types (σ : gmap addr DemandRequest.t) (p q : addr).

Lemma writeState_state σ p s :
  DemandRequest.state (writeState p s σ !!! p) = s.
Proof. unfold writeState. by rewrite lookup_total_insert_eq. Qed.

Lemma writeState_ne σ p q s : p ≠ q → writeState p s σ !!! q = σ !!! q.
Proof. intros. unfold writeState. by rewrite lookup_total_insert_ne. Qed.

Lemma writeState_lookup_ne σ p q s : p ≠ q → writeState p s σ !! q = σ !! q.
Proof. intros. unfold writeState. by rewrite lookup_insert_ne. Qed.

(** Writing a state changes no other field of any object. *)
Lemma writeState_fields σ p q s :
  DemandRequest.consumerID (writeState p s σ !!! q) = DemandRequest.consumerID (σ !!! q)
  ∧ DemandRequest.megawatts (writeState p s σ !!! q) = DemandRequest.megawatts (σ !!! q)
  ∧ DemandRequest.timestamp (writeState p s σ !!! q) = DemandRequest.timestamp (σ !!! q)
  ∧ DemandRequest.kind (writeState p s σ !!! q) = DemandRequest.kind (σ !!! q).
Proof.
  unfold writeState. destruct (decide (p = q)) as [->|Hne].
  - by rewrite lookup_total_insert_eq.
  - by rewrite lookup_total_insert_ne.
Qed.

Lemma writeState_priority σ p q s :
  DemandRequest.priority (writeState p s σ !!! q) = DemandRequest.priority (σ !!! q).
Proof.
  unfold DemandRequest.priority.
  by rewrite (proj2 (proj2 (proj2 (writeState_fields σ p q s)))).
Qed.

Lemma comp_writeState σ p s a b : comp (writeState p s σ) a b = comp σ a b.
Proof.
  unfold comp, CompareDemand. rewrite !writeState_priority.
  by rewrite !(proj1 (proj2 (proj2 (writeState_fields σ p _ s)))).
Qed.

End heap_facts.

(** C10. [receiveDemand req] leaves the object at [req] Queued with its other
    fields as they were, touches no other object, adds [req] to the pending
    ordering and changes neither the substations nor the maintenance list;
    [scheduleMaintenance sid start end] appends exactly one Scheduled job
    and changes neither the substations nor the pending ordering, whatever
    [sid] is. *)
Theorem C10_intake_frame (req : addr) (σ : gmap addr DemandRequest.t)
    (g : GridController.t) (sid : string) (start end_ : Z) :
  DemandRequest.state ((GridController.receiveDemand req σ g).1 !!! req)
    = DemandRequest.QUEUED
  ∧ DemandRequest.setState DemandRequest.QUEUED (σ !!! req)
    = (GridController.receiveDemand req σ g).1 !!! req
  ∧ (∀ p : addr, p ≠ req →
       (GridController.receiveDemand req σ g).1 !! p = σ !! p)
  ∧ GridController.demandQ (GridController.receiveDemand req σ g).2
      ≡ₚ req :: GridController.demandQ g
  ∧ GridController.substations (GridController.receiveDemand req σ g).2
      = GridController.substations g
  ∧ GridController.maintenanceList (GridController.receiveDemand req σ g).2
      = GridController.maintenanceList g
  ∧ GridController.maintenanceList
      (GridController.scheduleMaintenance sid start end_ g)
      = GridController.maintenanceList g
          ++ [MaintenanceJob.mk sid start end_ MaintenanceJob.SCHEDULED]
  ∧ GridController.substations
      (GridController.scheduleMaintenance sid start end_ g)
      = GridController.substations g
  ∧ GridController.demandQ
      (GridController.scheduleMaintenance sid start end_ g)
      = GridController.demandQ g.
Proof.
  unfold GridController.receiveDemand, GridController.scheduleMaintenance,
    PQ.push. simpl.
  repeat split.
  - apply writeState_state.
  - unfold GridController.writeState. by rewrite lookup_total_insert_eq.
  - intros p Hne. by apply writeState_lookup_ne.
  - by rewrite Permutation_app_comm.
Qed.

(** ** The pending ordering *)

Section pq_facts.
Context {A : Type} `{EqDecision A} (comp : A → A → bool).
Hypothesis comp_asym : ∀ a b, comp a b = true → comp b a = false.
Hypothesis comp_negtrans :
  ∀ a b c, comp a b = false → comp b c = false → comp a c = false.

Lemma comp_irrefl a : comp a a = false.
Proof.
  destruct (comp a a) eqn:E; [|done].
  pose proof (comp_asym a a E). congruence.
Qed.

(** The scan returns an element that is below none of those it has seen. *)
Lemma best_spec m q :
  (PQ.best comp m q = m ∨ PQ.best comp m q ∈ q)
  ∧ comp (PQ.best comp m q) m = false
  ∧ Forall (λ x, comp (PQ.best comp m q) x = false) q.
Proof.
  revert m. induction q as [|x q IH]; intros m; simpl.
  - split; [by left|]. split; [apply comp_irrefl|constructor].
  - destruct (IH (if comp m x then x else m)) as (Hin & Hm & Hall).
    destruct (comp m x) eqn:E.
    + split; [right; destruct Hin as [->|Hin]; [left|by right]|].
      split; [|by constructor].
      eapply comp_negtrans; [exact Hm|by apply comp_asym].
    + split; [destruct Hin as [->|Hin]; [by left|right; by right]|].
      split; [done|]. constructor; [|done].
      eapply comp_negtrans; [exact Hm|exact E].
Qed.

Lemma top_None q : PQ.top comp q = None ↔ q = [].
Proof. by destruct q. Qed.

(** The contract of [top()]. *)
Lemma top_Some q m :
  PQ.top comp q = Some m → m ∈ q ∧ Forall (λ x, comp m x = false) q.
Proof.
  destruct q as [|x q]; [done|]. simpl. intros [= <-].
  destruct (best_spec x q) as (Hin & Hm & Hall). split.
  - destruct Hin as [->|Hin]; [left|by right].
  - by constructor.
Qed.

Lemma remove1_perm (m : A) (q : list A) : m ∈ q → m :: PQ.remove1 m q ≡ₚ q.
Proof.
  induction q as [|x q IH]; [by intros ?%elem_of_nil|].
  intros Hin. simpl. destruct (decide (x = m)) as [->|Hne]; [done|].
  apply elem_of_cons in Hin as [->|Hin]; [done|].
  rewrite Permutation_swap. by rewrite IH.
Qed.

(** The contract of [pop()]. *)
Lemma pop_perm (q : list A) (m : A) :
  PQ.top comp q = Some m → m :: PQ.pop comp q ≡ₚ q.
Proof.
  intros Htop. unfold PQ.pop. rewrite Htop.
  apply remove1_perm. by apply top_Some.
Qed.

End pq_facts.

Lemma StronglySorted_impl {A : Type} (R1 R2 : A → A → Prop) (l : list A) :
  (∀ a b, R1 a b → R2 a b) → StronglySorted R1 l → StronglySorted R2 l.
Proof.
  intros Himp. induction 1 as [|a l _ IH Hall]; constructor; [done|].
  eapply Forall_impl; [exact Hall|]. intros b. apply Himp.
Qed.

Lemma StronglySorted_lookup {A : Type} (R : A → A → Prop) (l : list A)
    (i j : nat) (a b : A) :
  StronglySorted R l → l !! i = Some a → l !! j = Some b → (i < j)%nat → R a b.
Proof.
  intros Hs. revert i j. induction Hs as [|x l _ IH Hall]; intros i j Hi Hj Hlt.
  - by rewrite lookup_nil in Hi.
  - destruct j as [|j]; [lia|]. destruct i as [|i]; simpl in *.
    + injection Hi as ->. rewrite Forall_forall in Hall. apply Hall.
      by eapply list_elem_of_lookup_2.
    + apply (IH i j); [done|done|lia].
Qed.

(** ** The comparator *)

(** Case analysis on the tests of the comparator, closed by arithmetic. *)
Ltac compare_cases :=
  unfold CompareDemand; rewrite ?Z.gtb_ltb; intros;
  repeat case_match; rewrite ?negb_true_iff, ?negb_false_iff in *; lia.

Lemma CompareDemand_asym (x y : DemandRequest.t) :
  CompareDemand x y = true → CompareDemand y x = false.
Proof. compare_cases. Qed.

Lemma CompareDemand_negtrans (x y z : DemandRequest.t) :
  CompareDemand x y = false → CompareDemand y z = false →
  CompareDemand x z = false.
Proof. compare_cases. Qed.

(** A request of higher priority class is never ordered below one of lower. *)
Lemma CompareDemand_priority (x y : DemandRequest.t) :
  DemandRequest.priority x < DemandRequest.priority y → CompareDemand x y = true.
Proof. compare_cases. Qed.

(** Within a class the later request is ordered below the earlier one. *)
Lemma CompareDemand_timestamp (x y : DemandRequest.t) :
  DemandRequest.priority x = DemandRequest.priority y →
  DemandRequest.timestamp y < DemandRequest.timestamp x →
  CompareDemand x y = true.
Proof. compare_cases. Qed.

(** ** The allocation loop *)

Section scheduler_facts.
Import GridController.
Implicit Types (σ : gmap addr DemandRequest.t) (subs : list Substation.t).
Implicit Types (req p : addr) (order : list addr).

Lemma comp_heap_asym σ (a b : addr) : comp σ a b = true → comp σ b a = false.
Proof. apply CompareDemand_asym. Qed.

Lemma comp_heap_negtrans σ (a b c : addr) :
  comp σ a b = false → comp σ b c = false → comp σ a c = false.
Proof. apply CompareDemand_negtrans. Qed.

Lemma attempt_eq req σ subs :
  attempt req σ subs =
    (writeState req
       (if (tryAllocate (DemandRequest.megawatts (σ !!! req)) subs).2
        then DemandRequest.ALLOCATED else DemandRequest.SHED) σ,
     (tryAllocate (DemandRequest.megawatts (σ !!! req)) subs).1).
Proof. unfold attempt. by destruct (tryAllocate _ subs). Qed.

Lemma comp_attempt req σ subs (a b : addr) :
  comp (attempt req σ subs).1 a b = comp σ a b.
Proof. rewrite attempt_eq. simpl. apply comp_writeState. Qed.

Lemma attempts_cons req order σ subs :
  attempts (req :: order) (σ, subs) = attempts order (attempt req σ subs).
Proof. done. Qed.

Lemma attempts_snoc req order σ subs :
  attempts (order ++ [req]) (σ, subs) =
    attempt req (attempts order (σ, subs)).1 (attempts order (σ, subs)).2.
Proof. unfold attempts. by rewrite foldl_app. Qed.

(** The loop ends with nothing pending, having made one attempt for each
    pending request, in an order in which no request is below a later one. *)
Lemma allocLoop_spec (fuel : nat) (st : Pass) :
  (length (pending st) ≤ fuel)%nat →
  ∃ order,
    allocLoop fuel st =
      Some (mkPass (attempts order (heap st, subs st)).1 []
              (attempts order (heap st, subs st)).2 (temp st ++ order))
    ∧ order ≡ₚ pending st
    ∧ StronglySorted (λ a b, comp (heap st) a b = false) order.
Proof.
  revert st. induction fuel as [|n IH]; intros [σ q sbs tmp] Hlen; simpl in *.
  - destruct q; [|simpl in Hlen; lia]. exists []. simpl.
    rewrite app_nil_r. repeat split; constructor.
  - destruct (PQ.top (comp σ) q) as [req|] eqn:Htop.
    + pose proof (pop_perm _ (comp_heap_asym σ) (comp_heap_negtrans σ) q req Htop) as Hperm.
      destruct (top_Some _ (comp_heap_asym σ) (comp_heap_negtrans σ) q req Htop) as [_ Hall].
      destruct (attempt req σ sbs) as [σ' sbs'] eqn:Hatt.
      destruct (IH (mkPass σ' (PQ.pop (comp σ) q) sbs' (tmp ++ [req])))
        as (order & Heq & Hp & Hs).
      { simpl. apply Permutation_length in Hperm. simpl in Hperm. lia. }
      exists (req :: order). simpl in *.
      rewrite Hatt, Heq, <- app_assoc. simpl.
      split; [done|]. split; [by rewrite Hp|].
      constructor.
      * eapply StronglySorted_impl; [|exact Hs]. intros a b. simpl.
        replace σ' with (attempt req σ sbs).1 by (by rewrite Hatt).
        by rewrite comp_attempt.
      * rewrite Forall_forall in *. intros x Hx. apply Hall.
        rewrite <- Hperm. right. by rewrite <- Hp.
    + apply top_None in Htop. subst q. exists []. simpl.
      rewrite app_nil_r. repeat split; constructor.
Qed.

Lemma attempt_state req σ subs :
  DemandRequest.state ((attempt req σ subs).1 !!! req) =
    if (tryAllocate (DemandRequest.megawatts (σ !!! req)) subs).2
    then DemandRequest.ALLOCATED else DemandRequest.SHED.
Proof. rewrite attempt_eq. simpl. apply writeState_state. Qed.

Lemma attempt_other req σ subs p :
  p ≠ req → (attempt req σ subs).1 !!! p = σ !!! p.
Proof. intros Hne. rewrite attempt_eq. simpl. by apply writeState_ne. Qed.

(** Every request of the sequence ends Allocated or Shed. *)
Lemma attempts_settled order σ subs p :
  p ∈ order →
  DemandRequest.state ((attempts order (σ, subs)).1 !!! p) = DemandRequest.ALLOCATED
  ∨ DemandRequest.state ((attempts order (σ, subs)).1 !!! p) = DemandRequest.SHED.
Proof.
  induction order as [|x order IH] using rev_ind; [by intros ?%elem_of_nil|].
  intros Hin. rewrite attempts_snoc.
  destruct (decide (p = x)) as [->|Hne].
  - rewrite attempt_state. case_match; auto.
  - rewrite attempt_other by done. apply IH.
    apply elem_of_app in Hin as [Hin|Hin]; [done|].
    by apply list_elem_of_singleton in Hin.
Qed.

Lemma requeue_settled σ (tmp q : list addr) :
  (∀ r, r ∈ tmp → DemandRequest.state (σ !!! r) ≠ DemandRequest.QUEUED) →
  requeue σ tmp q = q.
Proof.
  induction tmp as [|r tmp IH]; intros Hall; simpl; [done|].
  rewrite decide_False by (apply Hall; left).
  apply IH. intros r' Hr'. apply Hall. by right.
Qed.

(** A cycle always completes.  Its allocation loop makes one attempt for
    each pending request, in an order in which no request is ordered below
    a later one, and step 3 re-enqueues nothing. *)
Lemma runScheduler_spec (now : Z) σ (g : GridController.t) :
  ∃ order,
    allocationPass now σ g =
      Some (mkPass
        (attempts order
           (σ, (updateMaintenance now (maintenanceList g) (substations g)).2)).1
        []
        (attempts order
           (σ, (updateMaintenance now (maintenanceList g) (substations g)).2)).2
        order)
    ∧ runScheduler now σ g =
        Some ((attempts order
                 (σ, (updateMaintenance now (maintenanceList g) (substations g)).2)).1,
              mk []
                (attempts order
                   (σ, (updateMaintenance now (maintenanceList g) (substations g)).2)).2
                (updateMaintenance now (maintenanceList g) (substations g)).1)
    ∧ order ≡ₚ demandQ g
    ∧ StronglySorted (λ a b, comp σ a b = false) order.
Proof.
  unfold runScheduler, allocationPass.
  destruct (updateMaintenance now (maintenanceList g) (substations g))
    as [jobs' subs1]. simpl.
  destruct (allocLoop_spec (length (demandQ g)) (mkPass σ (demandQ g) subs1 []))
    as (order & Heq & Hp & Hs); [done|].
  simpl in *. exists order. rewrite Heq. simpl.
  split; [done|]. split; [|done].
  rewrite requeue_settled; [done|].
  intros r Hr. destruct (attempts_settled order σ subs1 r Hr) as [-> | ->]; done.
Qed.

End scheduler_facts.

(** C1. The priority classes are Industrial = 3, Commercial = 2 and
    Residential = 1.  In every cycle the allocation loop makes exactly one
    attempt for each pending request, in the order recorded in [temp];
    whenever two pending requests have priority classes p1 > p2, every
    attempt for the p1 request comes before every attempt for the p2
    request. *)
Theorem C1_priority_order (now : Z) (σ : gmap addr DemandRequest.t)
    (g : GridController.t) :
  (∀ (t0 : Z) (c : string) (m : Q),
     DemandRequest.priority (DemandRequest.IndustrialRequest t0 c m) = 3
     ∧ DemandRequest.priority (DemandRequest.CommercialRequest t0 c m) = 2
     ∧ DemandRequest.priority (DemandRequest.ResidentialRequest t0 c m) = 1)
  ∧ ∃ (st : GridController.Pass) (g' : GridController.t),
    GridController.allocationPass now σ g = Some st
    ∧ GridController.runScheduler now σ g = Some (GridController.heap st, g')
    ∧ GridController.temp st ≡ₚ GridController.demandQ g
    ∧ (GridController.heap st, GridController.subs st) =
        GridController.attempts (GridController.temp st)
          (σ, (GridController.updateMaintenance now
                 (GridController.maintenanceList g)
                 (GridController.substations g)).2)
    ∧ ∀ (i j : nat) (r1 r2 : addr),
        GridController.temp st !! i = Some r1 →
        GridController.temp st !! j = Some r2 →
        DemandRequest.priority (σ !!! r1) > DemandRequest.priority (σ !!! r2) →
        (i < j)%nat.
Proof.
  split; [done|].
  destruct (runScheduler_spec now σ g) as (order & Hpass & Hrun & Hperm & Hsorted).
  eexists _, _. split; [exact Hpass|]. simpl.
  split; [exact Hrun|]. split; [done|]. split; [by destruct (GridController.attempts _ _)|].
  intros i j r1 r2 Hi Hj Hprio.
  destruct (Nat.lt_trichotomy i j) as [Hlt|[->|Hgt]]; [done|..].
  - rewrite Hi in Hj. injection Hj as ->. lia.
  - pose proof (StronglySorted_lookup _ _ _ _ _ _ Hsorted Hj Hi Hgt) as Hcmp.
    simpl in Hcmp. unfold GridController.comp in Hcmp.
    rewrite CompareDemand_priority in Hcmp; [done|lia].
Qed.

Lemma C1_priority_order_witness :
  ∃ st : GridController.Pass,
    GridController.allocationPass 200
      Scenario.submittedMixed.1 Scenario.submittedMixed.2 = Some st
    ∧ GridController.temp st = [3; 1; 2]%positive
    ∧ ∀ i j : nat,
        GridController.temp st !! i = Some 3%positive →
        GridController.temp st !! j = Some 1%positive → (i < j)%nat.
Proof.
  destruct (C1_priority_order 200
              Scenario.submittedMixed.1 Scenario.submittedMixed.2)
    as (_ & st & g' & Hpass & _ & _ & _ & Hord).
  exists st. split; [exact Hpass|]. split.
  - vm_compute in Hpass. by injection Hpass as <-.
  - intros i j Hi Hj. apply (Hord i j 3%positive 1%positive Hi Hj).
    vm_compute. reflexivity.
Defined.

(** C2. In every cycle, whenever two pending requests have the same priority
    class and the first was created strictly earlier, every attempt for the
    first comes before every attempt for the second; requests equal in class
    and timestamp are not ordered by this statement. *)
Theorem C2_fifo_within_class (now : Z) (σ : gmap addr DemandRequest.t)
    (g : GridController.t) :
  ∃ (st : GridController.Pass) (g' : GridController.t),
    GridController.allocationPass now σ g = Some st
    ∧ GridController.runScheduler now σ g = Some (GridController.heap st, g')
    ∧ GridController.temp st ≡ₚ GridController.demandQ g
    ∧ (GridController.heap st, GridController.subs st) =
        GridController.attempts (GridController.temp st)
          (σ, (GridController.updateMaintenance now
                 (GridController.maintenanceList g)
                 (GridController.substations g)).2)
    ∧ ∀ (i j : nat) (r1 r2 : addr),
        GridController.temp st !! i = Some r1 →
        GridController.temp st !! j = Some r2 →
        DemandRequest.priority (σ !!! r1) = DemandRequest.priority (σ !!! r2) →
        DemandRequest.timestamp (σ !!! r1) < DemandRequest.timestamp (σ !!! r2) →
        (i < j)%nat.
Proof.
  destruct (runScheduler_spec now σ g) as (order & Hpass & Hrun & Hperm & Hsorted).
  eexists _, _. split; [exact Hpass|]. simpl.
  split; [exact Hrun|]. split; [done|]. split; [by destruct (GridController.attempts _ _)|].
  intros i j r1 r2 Hi Hj Hprio Hts.
  destruct (Nat.lt_trichotomy i j) as [Hlt|[->|Hgt]]; [done|..].
  - rewrite Hi in Hj. injection Hj as ->. lia.
  - pose proof (StronglySorted_lookup _ _ _ _ _ _ Hsorted Hj Hi Hgt) as Hcmp.
    simpl in Hcmp. unfold GridController.comp in Hcmp.
    rewrite CompareDemand_timestamp in Hcmp; [done|done|lia].
Qed.

Lemma C2_fifo_within_class_witness :
  ∃ st : GridController.Pass,
    GridController.allocationPass 200
      Scenario.submittedMixed.1 Scenario.submittedMixed.2 = Some st
    ∧ GridController.demandQ Scenario.submittedMixed.2 = [2; 1; 3]%positive
    ∧ ∀ i j : nat,
        GridController.temp st !! i = Some 1%positive →
        GridController.temp st !! j = Some 2%positive → (i < j)%nat.
Proof.
  destruct (C2_fifo_within_class 200
              Scenario.submittedMixed.1 Scenario.submittedMixed.2)
    as (st & g' & Hpass & _ & _ & _ & Hord).
  exists st. split; [exact Hpass|]. split; [reflexivity|].
  intros i j Hi Hj. apply (Hord i j 1%positive 2%positive Hi Hj).
  - vm_compute. reflexivity.
  - vm_compute. reflexivity.
Defined.

(** C7. Every cycle completes; after it each request that was pending at its
    start is Allocated or Shed, the allocation loop has emptied the pending
    ordering, no attempted request is still Queued, and step 3 re-inserts
    nothing, so the pending ordering is empty. *)
Theorem C7_cycle_settles_all (now : Z) (σ : gmap addr DemandRequest.t)
    (g : GridController.t) :
  ∃ (st : GridController.Pass) (g' : GridController.t),
    GridController.allocationPass now σ g = Some st
    ∧ GridController.runScheduler now σ g = Some (GridController.heap st, g')
    ∧ GridController.pending st = []
    ∧ GridController.temp st ≡ₚ GridController.demandQ g
    ∧ Forall
        (λ r, DemandRequest.state (GridController.heap st !!! r) ≠ DemandRequest.QUEUED)
        (GridController.temp st)
    ∧ GridController.demandQ g' = []
    ∧ ∀ p : addr, p ∈ GridController.demandQ g →
        DemandRequest.state (GridController.heap st !!! p) = DemandRequest.ALLOCATED
        ∨ DemandRequest.state (GridController.heap st !!! p) = DemandRequest.SHED.
Proof.
  destruct (runScheduler_spec now σ g) as (order & Hpass & Hrun & Hperm & _).
  eexists _, _. split; [exact Hpass|]. simpl.
  split; [exact Hrun|]. split; [done|]. split; [done|]. simpl.
  assert (∀ p : addr, p ∈ order →
    DemandRequest.state
      ((GridController.attempts order
          (σ, (GridController.updateMaintenance now
                 (GridController.maintenanceList g)
                 (GridController.substations g)).2)).1 !!! p) = DemandRequest.ALLOCATED
    ∨ DemandRequest.state
      ((GridController.attempts order
          (σ, (GridController.updateMaintenance now
                 (GridController.maintenanceList g)
                 (GridController.substations g)).2)).1 !!! p) = DemandRequest.SHED)
    as Hsettled by (intros p Hp; by apply attempts_settled).
  split; [|split; [done|]].
  - apply Forall_forall. intros r Hr.
    destruct (Hsettled r Hr) as [-> | ->]; done.
  - intros p Hp. apply Hsettled. by rewrite Hperm.
Qed.

Lemma C7_cycle_settles_all_witness :
  ∃ st : GridController.Pass,
    GridController.allocationPass 200
      Scenario.submittedMixed.1 Scenario.submittedMixed.2 = Some st
    ∧ (DemandRequest.state (GridController.heap st !!! 2%positive)
         = DemandRequest.ALLOCATED
       ∨ DemandRequest.state (GridController.heap st !!! 2%positive)
         = DemandRequest.SHED).
Proof.
  destruct (C7_cycle_settles_all 200
              Scenario.submittedMixed.1 Scenario.submittedMixed.2)
    as (st & g' & Hpass & _ & _ & _ & _ & _ & Hall).
  exists st. split; [exact Hpass|]. apply Hall.
  vm_compute. left.
Defined.

(** ** First fit over the substations *)

Section first_fit.
Import Substation GridController.
Implicit Types (σ : gmap addr DemandRequest.t) (subs : list Substation.t).
Implicit Types (mw : Q) (req : addr).

Lemma tryAllocate_none mw subs :
  Forall (λ s, ¬ (mw <= available s)%Q) subs → tryAllocate mw subs = (subs, false).
Proof.
  induction 1 as [|s subs Hs _ IH]; simpl; [done|].
  by rewrite (allocate_false s mw Hs), IH.
Qed.


Lemma tryAllocate_ok mw subs :
  (tryAllocate mw subs).2 = true ↔ Exists (λ s, (mw <= available s)%Q) subs.
Proof.
  induction subs as [|s subs IH]; simpl.
  - split; [done|]. by intros ?%Exists_nil.
  - rewrite Exists_cons.
    destruct (allocate_cases s mw) as [[Hle ->]|[Hnle ->]]; simpl.
    + split; auto.
    + destruct (tryAllocate mw subs) as [rest ok]; simpl in *.
      rewrite IH. split; [by right|]. by intros [?|?].
Qed.

Lemma tryAllocate_fail mw subs :
  (tryAllocate mw subs).2 = false ↔ Forall (λ s, ¬ (mw <= available s)%Q) subs.
Proof.
  rewrite <- not_true_iff_false, tryAllocate_ok.
  symmetry. apply Forall_Exists_neg.
Qed.

End first_fit.



(** ** The capacity invariant *)

Section capacity.
Import Substation GridController.
Implicit Types (σ : gmap addr DemandRequest.t) (subs : list Substation.t).
Implicit Types (s : Substation.t) (mw : Q).

Lemma allocate_within s mw :
  withinCapacity s → (0 <= mw)%Q → withinCapacity (allocate mw s).1.
Proof.
  intros [Hlo Hhi] Hmw.
  destruct (allocate_cases s mw) as [[Hle ->]|[_ ->]]; simpl; [|done].
  unfold withinCapacity, available in *. simpl.
  destruct (online s); lra.
Qed.



Lemma applyJob_within (job : MaintenanceJob.t) s :
  withinCapacity s → withinCapacity (applyJob job s).
Proof. unfold applyJob. by case_decide. Qed.

Lemma updateMaintenance_within (now : Z) (jobs : list MaintenanceJob.t) subs :
  Forall withinCapacity subs →
  Forall withinCapacity (updateMaintenance now jobs subs).2.
Proof.
  revert subs. induction jobs as [|job jobs IH]; intros subs Hall; simpl; [done|].
  specialize (IH (applyJob (MaintenanceJob.advanceState now job) <$> subs)).
  destruct (updateMaintenance now jobs _) as [rest' subs']. simpl in *.
  apply IH. apply Forall_fmap. eapply Forall_impl; [exact Hall|].
  intros s Hs. by apply applyJob_within.
Qed.

Lemma tryAllocate_within mw subs :
  Forall withinCapacity subs → (0 <= mw)%Q →
  Forall withinCapacity (tryAllocate mw subs).1.
Proof.
  intros Hall Hmw. induction Hall as [|s subs Hs Hall IH]; simpl; [done|].
  pose proof (allocate_within s mw Hs Hmw) as Hs'.
  destruct (allocate mw s) as [s' ok]. simpl in Hs'.
  destruct ok; [by constructor|].
  destruct (tryAllocate mw subs) as [rest' allocated]. by constructor.
Qed.

Lemma attempts_within (order : list addr) σ subs :
  Forall withinCapacity subs →
  Forall (λ p, (0 <= DemandRequest.megawatts (σ !!! p))%Q) order →
  Forall withinCapacity (attempts order (σ, subs)).2.
Proof.
  revert σ subs. induction order as [|req order IH]; intros σ subs Hall Hmw;
    [done|].
  rewrite attempts_cons, attempt_eq. apply Forall_cons in Hmw as [Hreq Hmw].
  apply IH; [by apply tryAllocate_within|].
  eapply Forall_impl; [exact Hmw|]. intros p Hp. simpl in *.
  by rewrite (proj1 (proj2 (writeState_fields σ req p _))).
Qed.

End capacity.


(** ** Maintenance gating *)

(** C5, the code at two maintenance windows on one substation.  At time 10
    the first window of S01 is InProgress and the second is still Scheduled;
    the second job is evaluated last and writes the flag, so S01 is online
    with all of its capacity available while one of its jobs is InProgress,
    and the pending request is allocated on it in that cycle. *)
Theorem C5_last_job_writes_flag :
  MaintenanceJob.state <$>
    (GridController.updateMaintenance 10
       (GridController.maintenanceList Scenario.submittedMaint.2)
       (GridController.substations Scenario.submittedMaint.2)).1
    = [MaintenanceJob.IN_PROGRESS; MaintenanceJob.SCHEDULED]
  ∧ (GridController.updateMaintenance 10
       (GridController.maintenanceList Scenario.submittedMaint.2)
       (GridController.substations Scenario.submittedMaint.2)).2
    = [Substation.mk "S01" 50 0 true]
  ∧ Substation.available (Substation.mk "S01" 50 0 true) = (50 - 0)%Q
  ∧ (λ r, (DemandRequest.state (r.1 !!! 1%positive),
           GridController.substations r.2,
           MaintenanceJob.state <$> GridController.maintenanceList r.2))
      <$> GridController.runScheduler 10
            Scenario.submittedMaint.1 Scenario.submittedMaint.2
      = Some (DemandRequest.ALLOCATED,
              [Substation.mk "S01" 50 30 true],
              [MaintenanceJob.IN_PROGRESS; MaintenanceJob.SCHEDULED]).
Proof.
  repeat split; vm_compute; reflexivity.
Qed.

(** X1. When several jobs name one substation, the flag that the maintenance
    step leaves is the one written for the last of them: every job is
    advanced, and a substation is online afterwards exactly when the last
    job naming it is not InProgress; a substation that no job names keeps
    its flag. *)
Theorem updateMaintenance_last_write (now : Z)
    (jobs : list MaintenanceJob.t) (subs : list Substation.t) :
  (GridController.updateMaintenance now jobs subs).1
    = MaintenanceJob.advanceState now <$> jobs
  ∧ (GridController.updateMaintenance now jobs subs).2
    = (λ sub,
         match GridController.lastJobFor (Substation.id sub)
                 (MaintenanceJob.advanceState now <$> jobs) with
         | Some job =>
             Substation.setOnline
               (negb (bool_decide
                        (MaintenanceJob.state job = MaintenanceJob.IN_PROGRESS)))
               sub
         | None => sub
         end) <$> subs.
Proof.
  revert subs. induction jobs as [|job jobs IH]; intros subs.
  - simpl. split; [done|]. by rewrite list_fmap_id.
  - simpl.
    destruct (IH (GridController.applyJob (MaintenanceJob.advanceState now job)
                    <$> subs)) as [IH1 IH2].
    destruct (GridController.updateMaintenance now jobs _) as [rest' subs'].
    simpl in *. subst rest' subs'. split; [done|].
    rewrite <- list_fmap_compose. apply list_fmap_ext. intros _ sub _. simpl.
    unfold GridController.lastJobFor, GridController.applyJob.
    rewrite filter_cons.
    destruct (decide (Substation.id sub
                      = MaintenanceJob.substationID
                          (MaintenanceJob.advanceState now job))) as [Heq|Hne].
    + rewrite decide_True by done. rewrite last_cons. simpl.
      by destruct (last _).
    + by rewrite decide_False by done.
Qed.

(** * Further properties *)

(** ** MaintenanceJob: advancing over time *)

(** X5. Advancing a job to a time and then to a later time gives what
    advancing it to the later time alone gives; in particular advancing
    twice to the same time changes nothing the second time. *)
Theorem advanceState_catch_up (j : MaintenanceJob.t) (now1 now2 : Z) :
  now1 ≤ now2 →
  MaintenanceJob.advanceState now2 (MaintenanceJob.advanceState now1 j)
  = MaintenanceJob.advanceState now2 j.
Proof.
  intros Hle. destruct j as [sid st et s].
  unfold MaintenanceJob.advanceState. simpl. rewrite !Z.geb_leb.
  destruct s; simpl;
    destruct (Z.leb_spec st now1); simpl;
    destruct (Z.leb_spec et now1); simpl;
    destruct (Z.leb_spec st now2); simpl;
    destruct (Z.leb_spec et now2); simpl; try done; lia.
Qed.

Lemma advanceState_catch_up_witness :
  MaintenanceJob.advanceState 20
    (MaintenanceJob.advanceState 5 (MaintenanceJob.new "S01" 0 10))
  = MaintenanceJob.advanceState 20 (MaintenanceJob.new "S01" 0 10).
Proof.
  apply (advanceState_catch_up (MaintenanceJob.new "S01" 0 10) 5 20). lia.
Defined.

(** X6. After [advanceState now] a job that was Scheduled is InProgress
    exactly when [start <= now < end]; so a job whose window has
    [end <= start] is never left InProgress. *)
Theorem advanceState_in_window (j : MaintenanceJob.t) (now : Z) :
  MaintenanceJob.state j = MaintenanceJob.SCHEDULED →
  (MaintenanceJob.state (MaintenanceJob.advanceState now j)
     = MaintenanceJob.IN_PROGRESS
   ↔ MaintenanceJob.startTime j ≤ now < MaintenanceJob.endTime j)
  ∧ (MaintenanceJob.endTime j ≤ MaintenanceJob.startTime j →
     MaintenanceJob.state (MaintenanceJob.advanceState now j)
       ≠ MaintenanceJob.IN_PROGRESS).
Proof.
  destruct j as [sid st et s]. simpl. intros ->.
  unfold MaintenanceJob.advanceState. simpl. rewrite !Z.geb_leb.
  destruct (Z.leb_spec st now); simpl;
    destruct (Z.leb_spec et now); simpl;
    (split; [split|]); intros; try done; try lia.
Qed.

Lemma advanceState_in_window_witness :
  MaintenanceJob.state
    (MaintenanceJob.advanceState 50 (MaintenanceJob.new "S01" 100 10))
  ≠ MaintenanceJob.IN_PROGRESS.
Proof.
  apply (proj2 (advanceState_in_window (MaintenanceJob.new "S01" 100 10) 50
                  eq_refl)).
  simpl. lia.
Defined.

(** ** The maintenance step of a cycle *)

Section maintenance_step.
Import GridController.
Implicit Types (jobs : list MaintenanceJob.t) (subs : list Substation.t).

Lemma updateMaintenance_jobs (now : Z) jobs subs :
  (updateMaintenance now jobs subs).1 = MaintenanceJob.advanceState now <$> jobs.
Proof.
  revert subs. induction jobs as [|job jobs IH]; intros subs; simpl; [done|].
  specialize (IH (applyJob (MaintenanceJob.advanceState now job) <$> subs)).
  destruct (updateMaintenance now jobs _) as [rest' subs']. simpl in *.
  by rewrite IH.
Qed.

Lemma updateMaintenance_app (now : Z) (jobs1 jobs2 : list MaintenanceJob.t) subs :
  updateMaintenance now (jobs1 ++ jobs2) subs =
    ((updateMaintenance now jobs1 subs).1
       ++ (updateMaintenance now jobs2 (updateMaintenance now jobs1 subs).2).1,
     (updateMaintenance now jobs2 (updateMaintenance now jobs1 subs).2).2).
Proof.
  revert subs. induction jobs1 as [|job jobs1 IH]; intros subs; simpl.
  - by destruct (updateMaintenance now jobs2 subs).
  - rewrite IH.
    destruct (updateMaintenance now jobs1 _) as [rest1 subs1]. simpl.
    by destruct (updateMaintenance now jobs2 subs1).
Qed.

Lemma applyJob_sameButOnline (job : MaintenanceJob.t) (sub : Substation.t) :
  sameButOnline (applyJob job sub) sub.
Proof. unfold applyJob. by case_decide. Qed.

Lemma sameButOnline_trans (x y z : Substation.t) :
  sameButOnline x y → sameButOnline y z → sameButOnline x z.
Proof.
  unfold sameButOnline. intros (H1 & H2 & H3) (H4 & H5 & H6).
  repeat split; congruence.
Qed.

(** The step changes nothing of a substation but its online flag. *)
Lemma updateMaintenance_sameButOnline (now : Z) jobs subs :
  Forall2 sameButOnline (updateMaintenance now jobs subs).2 subs.
Proof.
  revert subs. induction jobs as [|job jobs IH]; intros subs; simpl.
  - apply Forall_Forall2_diag, Forall_forall. by intros.
  - specialize (IH (applyJob (MaintenanceJob.advanceState now job) <$> subs)).
    destruct (updateMaintenance now jobs _) as [rest' subs']. simpl in *.
    eapply Forall2_trans; [apply sameButOnline_trans|exact IH|].
    apply Forall2_fmap_l, Forall_Forall2_diag, Forall_forall.
    intros sub _. apply applyJob_sameButOnline.
Qed.

End maintenance_step.

(** ** What the allocation loop leaves alone *)

Section allocation_frames.
Import GridController.
Implicit Types (σ : gmap addr DemandRequest.t) (subs : list Substation.t).
Implicit Types (mw : Q) (req p : addr) (order : list addr).

Lemma sameButUsed_refl (s : Substation.t) : sameButUsed s s.
Proof. by unfold sameButUsed. Qed.

Lemma sameButUsed_trans (x y z : Substation.t) :
  sameButUsed x y → sameButUsed y z → sameButUsed x z.
Proof.
  unfold sameButUsed. intros (H1 & H2 & H3) (H4 & H5 & H6).
  repeat split; congruence.
Qed.

Lemma allocate_sameButUsed mw (s : Substation.t) :
  sameButUsed (Substation.allocate mw s).1 s.
Proof.
  destruct (allocate_cases s mw) as [[_ ->]|[_ ->]]; by unfold sameButUsed.
Qed.

Lemma tryAllocate_sameButUsed mw subs :
  Forall2 sameButUsed (tryAllocate mw subs).1 subs.
Proof.
  induction subs as [|s subs IH]; simpl; [constructor|].
  pose proof (allocate_sameButUsed mw s) as Hs.
  destruct (Substation.allocate mw s) as [s' ok]. simpl in Hs.
  destruct ok; simpl.
  - constructor; [done|].
    apply Forall_Forall2_diag, Forall_forall. intros. apply sameButUsed_refl.
  - destruct (tryAllocate mw subs) as [rest' allocated]. by constructor.
Qed.

Lemma attempts_app (order1 order2 : list addr)
    (st : gmap addr DemandRequest.t * list Substation.t) :
  attempts (order1 ++ order2) st = attempts order2 (attempts order1 st).
Proof. unfold attempts. by rewrite foldl_app. Qed.

Lemma attempts_sameButUsed order σ subs :
  Forall2 sameButUsed (attempts order (σ, subs)).2 subs.
Proof.
  revert σ subs. induction order as [|req order IH]; intros σ subs.
  - apply Forall_Forall2_diag, Forall_forall. intros. apply sameButUsed_refl.
  - rewrite attempts_cons, attempt_eq.
    eapply Forall2_trans; [apply sameButUsed_trans|apply IH|].
    apply tryAllocate_sameButUsed.
Qed.

(** An object whose address is not attempted is not written. *)
Lemma attempts_unqueued order σ subs p :
  p ∉ order → (attempts order (σ, subs)).1 !! p = σ !! p.
Proof.
  revert σ subs. induction order as [|req order IH]; intros σ subs Hp; [done|].
  apply not_elem_of_cons in Hp as [Hne Hp].
  rewrite attempts_cons, attempt_eq, IH by done.
  by apply writeState_lookup_ne.
Qed.

Lemma attempts_unqueued_total order σ subs p :
  p ∉ order → (attempts order (σ, subs)).1 !!! p = σ !!! p.
Proof.
  intros Hp. rewrite !lookup_total_alt. by rewrite attempts_unqueued.
Qed.

Lemma setState_ext (s : DemandRequest.State) (r1 r2 : DemandRequest.t) :
  DemandRequest.consumerID r1 = DemandRequest.consumerID r2 →
  DemandRequest.megawatts r1 = DemandRequest.megawatts r2 →
  DemandRequest.timestamp r1 = DemandRequest.timestamp r2 →
  DemandRequest.kind r1 = DemandRequest.kind r2 →
  DemandRequest.setState s r1 = DemandRequest.setState s r2.
Proof. unfold DemandRequest.setState. congruence. Qed.

Lemma setState_state (r : DemandRequest.t) :
  DemandRequest.setState (DemandRequest.state r) r = r.
Proof. by destruct r. Qed.

(** The attempts write nothing of an object but its state. *)
Lemma attempts_setState order σ subs p :
  DemandRequest.setState
    (DemandRequest.state ((attempts order (σ, subs)).1 !!! p)) (σ !!! p)
  = (attempts order (σ, subs)).1 !!! p.
Proof.
  revert σ subs. induction order as [|req order IH]; intros σ subs.
  - apply setState_state.
  - rewrite attempts_cons, attempt_eq. rewrite <- IH at 2.
    destruct (writeState_fields σ req p
                (if (tryAllocate (DemandRequest.megawatts (σ !!! req)) subs).2
                 then DemandRequest.ALLOCATED else DemandRequest.SHED))
      as (H1 & H2 & H3 & H4).
    by apply setState_ext.
Qed.

Lemma attempts_megawatts order σ subs p :
  DemandRequest.megawatts ((attempts order (σ, subs)).1 !!! p)
  = DemandRequest.megawatts (σ !!! p).
Proof. by rewrite <- attempts_setState. Qed.

(** An offline substation takes no positive amount. *)
Lemma tryAllocate_offline mw subs (i : nat) (sub : Substation.t) :
  (0 < mw)%Q → subs !! i = Some sub → Substation.online sub = false →
  (tryAllocate mw subs).1 !! i = Some sub.
Proof.
  intros Hmw. revert i. induction subs as [|s subs IH]; intros i Hi Hoff;
    [done|]. simpl.
  destruct (allocate_cases s mw) as [[Hfit ->]|[_ ->]]; simpl.
  - destruct i as [|i]; [|done]. simpl in Hi. injection Hi as ->.
    exfalso. revert Hfit. unfold Substation.available. rewrite Hoff. lra.
  - destruct (tryAllocate mw subs) as [rest' allocated] eqn:Htry.
    destruct i as [|i]; [done|]. simpl in *. by apply IH.
Qed.

Lemma attempts_offline order σ subs (i : nat) (sub : Substation.t) :
  Forall (λ p, (0 < DemandRequest.megawatts (σ !!! p))%Q) order →
  subs !! i = Some sub → Substation.online sub = false →
  (attempts order (σ, subs)).2 !! i = Some sub.
Proof.
  revert σ subs. induction order as [|req order IH]; intros σ subs Hmw Hi Hoff;
    [done|].
  apply Forall_cons in Hmw as [Hreq Hmw].
  rewrite attempts_cons, attempt_eq. apply IH.
  - eapply Forall_impl; [exact Hmw|]. intros p Hp. simpl in *.
    by rewrite (proj1 (proj2 (writeState_fields σ req p _))).
  - by apply tryAllocate_offline.
  - done.
Qed.

(** Amounts of at least 0 only shrink what is available: an amount that
    fits nowhere before fits nowhere after. *)
Lemma tryAllocate_unfit (m mw : Q) subs :
  (0 <= mw)%Q →
  Forall (λ s, ¬ (m <= Substation.available s)%Q) subs →
  Forall (λ s, ¬ (m <= Substation.available s)%Q) (tryAllocate mw subs).1.
Proof.
  intros Hmw Hall. induction Hall as [|s subs Hs Hall IH]; simpl; [done|].
  destruct (allocate_cases s mw) as [[Hfit ->]|[_ ->]]; simpl.
  - constructor; [|done]. revert Hs Hfit. unfold Substation.available. simpl.
    destruct (Substation.online s); lra.
  - destruct (tryAllocate mw subs) as [rest' allocated]. by constructor.
Qed.

Lemma attempts_unfit (m : Q) order σ subs :
  Forall (λ p, (0 <= DemandRequest.megawatts (σ !!! p))%Q) order →
  Forall (λ s, ¬ (m <= Substation.available s)%Q) subs →
  Forall (λ s, ¬ (m <= Substation.available s)%Q) (attempts order (σ, subs)).2.
Proof.
  revert σ subs. induction order as [|req order IH]; intros σ subs Hmw Hall;
    [done|].
  apply Forall_cons in Hmw as [Hreq Hmw].
  rewrite attempts_cons, attempt_eq. apply IH.
  - eapply Forall_impl; [exact Hmw|]. intros p Hp. simpl in *.
    by rewrite (proj1 (proj2 (writeState_fields σ req p _))).
  - by apply tryAllocate_unfit.
Qed.

End allocation_frames.

(** ** Cycles and maintenance windows *)

Lemma advanceState_fields (now : Z) (j : MaintenanceJob.t) :
  MaintenanceJob.substationID (MaintenanceJob.advanceState now j)
    = MaintenanceJob.substationID j
  ∧ MaintenanceJob.startTime (MaintenanceJob.advanceState now j)
    = MaintenanceJob.startTime j
  ∧ MaintenanceJob.endTime (MaintenanceJob.advanceState now j)
    = MaintenanceJob.endTime j
  ∧ MaintenanceJob.rank (MaintenanceJob.state j)
    ≤ MaintenanceJob.rank (MaintenanceJob.state (MaintenanceJob.advanceState now j)).
Proof.
  destruct j as [sid st et s]. unfold MaintenanceJob.advanceState. simpl.
  destruct s; simpl; repeat case_match; simpl; repeat split; lia.
Qed.

Lemma applyJob_new (now : Z) (sid : string) (st et : Z) (sub : Substation.t) :
  GridController.applyJob
    (MaintenanceJob.advanceState now (MaintenanceJob.new sid st et)) sub
  = if decide (Substation.id sub = sid)
    then Substation.setOnline (negb (bool_decide (st ≤ now < et))) sub
    else sub.
Proof.
  unfold GridController.applyJob.
  rewrite (proj1 (advanceState_fields now _)). simpl.
  case_decide; [|done]. f_equal. f_equal.
  unfold MaintenanceJob.advanceState. simpl. rewrite !Z.geb_leb.
  destruct (Z.leb_spec st now); simpl;
    destruct (Z.leb_spec et now); simpl;
    symmetry; (apply bool_decide_eq_true || apply bool_decide_eq_false); lia.
Qed.

(** X7. The window scheduled last decides: in the cycle that follows
    [scheduleMaintenance sid start end], whatever other jobs there are, every
    substation named [sid] ends offline exactly when [start <= now < end];
    the substations keep their names. *)
Theorem scheduled_window_decides (now : Z) (σ : gmap addr DemandRequest.t)
    (g : GridController.t) (sid : string) (st et : Z) :
  ∃ (σ' : gmap addr DemandRequest.t) (g' : GridController.t),
    GridController.runScheduler now σ
      (GridController.scheduleMaintenance sid st et g) = Some (σ', g')
    ∧ Substation.id <$> GridController.substations g'
      = Substation.id <$> GridController.substations g
    ∧ ∀ sub : Substation.t,
        sub ∈ GridController.substations g' → Substation.id sub = sid →
        Substation.online sub = negb (bool_decide (st ≤ now < et)).
Proof.
  destruct (runScheduler_spec now σ (GridController.scheduleMaintenance sid st et g))
    as (order & _ & Hrun & _ & _).
  eexists _, _. split; [exact Hrun|]. simpl.
  rewrite updateMaintenance_app. simpl.
  set (subs0 := (GridController.updateMaintenance now
                   (GridController.maintenanceList g)
                   (GridController.substations g)).2).
  pose proof (updateMaintenance_sameButOnline now
                (GridController.maintenanceList g)
                (GridController.substations g)) as H0. fold subs0 in H0.
  pose proof (attempts_sameButUsed order σ
                (GridController.applyJob
                   (MaintenanceJob.advanceState now (MaintenanceJob.new sid st et))
                 <$> subs0)) as H1.
  split.
  - apply list_eq. intros i. rewrite !list_lookup_fmap.
    destruct (GridController.substations g !! i) as [s|] eqn:Hs.
    + destruct (Forall2_lookup_r _ _ _ _ _ H0 Hs) as (s0 & Hs0 & Hsame0).
      assert ((GridController.applyJob
                 (MaintenanceJob.advanceState now (MaintenanceJob.new sid st et))
               <$> subs0) !! i
              = Some (GridController.applyJob
                 (MaintenanceJob.advanceState now (MaintenanceJob.new sid st et)) s0))
        as Hs1 by (by rewrite list_lookup_fmap, Hs0).
      destruct (Forall2_lookup_r _ _ _ _ _ H1 Hs1) as (s' & Hs' & Hsame1).
      rewrite Hs'. simpl. f_equal.
      destruct Hsame1 as (-> & _). rewrite applyJob_new.
      destruct Hsame0 as (<- & _). by case_decide.
    + apply lookup_ge_None in Hs.
      apply Forall2_length in H0, H1. rewrite length_fmap in H1.
      rewrite (proj2 (lookup_ge_None _ i)) by lia. done.
  - intros sub Hin Hid.
    apply list_elem_of_lookup in Hin as [i Hi].
    destruct (Forall2_lookup_l _ _ _ _ _ H1 Hi) as (s1 & Hs1 & Hsame1).
    rewrite list_lookup_fmap in Hs1.
    destruct (subs0 !! i) as [s0|]; [|done]. simpl in Hs1. injection Hs1 as <-.
    destruct Hsame1 as (Hid1 & _ & ->). rewrite applyJob_new in *.
    case_decide as Hd; [done|]. congruence.
Qed.

(** X8. A job for a name that no substation bears is inert: the cycle that
    follows [scheduleMaintenance] for such a name gives the heap, the
    substations and the pending ordering of the cycle without it, and the
    job only joins the maintenance list. *)
Theorem unknown_substation_inert (now : Z) (σ : gmap addr DemandRequest.t)
    (g : GridController.t) (sid : string) (st et : Z) :
  (∀ sub : Substation.t,
     sub ∈ GridController.substations g → Substation.id sub ≠ sid) →
  GridController.runScheduler now σ
    (GridController.scheduleMaintenance sid st et g)
  = (λ r : gmap addr DemandRequest.t * GridController.t,
       (r.1,
        GridController.mk (GridController.demandQ r.2)
          (GridController.substations r.2)
          (GridController.maintenanceList r.2
             ++ [MaintenanceJob.advanceState now (MaintenanceJob.new sid st et)])))
    <$> GridController.runScheduler now σ g.
Proof.
  intros Hnone. unfold GridController.runScheduler. simpl.
  rewrite updateMaintenance_app.
  pose proof (updateMaintenance_sameButOnline now
                (GridController.maintenanceList g)
                (GridController.substations g)) as H0.
  destruct (GridController.updateMaintenance now
              (GridController.maintenanceList g)
              (GridController.substations g)) as [jobs' subs0].
  simpl in *.
  assert (GridController.applyJob
            (MaintenanceJob.advanceState now (MaintenanceJob.new sid st et))
          <$> subs0 = subs0) as ->.
  { rewrite <- (list_fmap_id subs0) at 2. apply list_fmap_ext.
    intros i s0 Hs0. rewrite applyJob_new.
    destruct (Forall2_lookup_l _ _ _ _ _ H0 Hs0) as (s & Hs & Hid & _).
    rewrite decide_False; [done|]. rewrite Hid. apply Hnone.
    by eapply list_elem_of_lookup_2. }
  by destruct (GridController.allocLoop _ _).
Qed.

Lemma unknown_substation_inert_witness :
  GridController.runScheduler 10 Scenario.submitted2.1
    (GridController.scheduleMaintenance "S09" 0 3600 Scenario.submitted2.2)
  = (λ r : gmap addr DemandRequest.t * GridController.t,
       (r.1,
        GridController.mk (GridController.demandQ r.2)
          (GridController.substations r.2)
          (GridController.maintenanceList r.2
             ++ [MaintenanceJob.advanceState 10 (MaintenanceJob.new "S09" 0 3600)])))
    <$> GridController.runScheduler 10 Scenario.submitted2.1 Scenario.submitted2.2.
Proof.
  apply (unknown_substation_inert 10 Scenario.submitted2.1 Scenario.submitted2.2
           "S09" 0 3600).
  intros sub Hin. vm_compute in Hin.
  repeat (apply elem_of_cons in Hin as [->|Hin]; [discriminate|]).
  by apply elem_of_nil in Hin.
Defined.

(** X9. A cycle completes and leaves alone: the number, order, names and
    capacities of the substations; every field of every request but its
    state; every object whose address is not pending; and the substation and
    the window of every maintenance job, whose state never moves backwards. *)
Theorem runScheduler_frame (now : Z) (σ : gmap addr DemandRequest.t)
    (g : GridController.t) :
  ∃ (σ' : gmap addr DemandRequest.t) (g' : GridController.t),
    GridController.runScheduler now σ g = Some (σ', g')
    ∧ Forall2 (λ s' s, Substation.id s' = Substation.id s
                       ∧ Substation.capacityMW s' = Substation.capacityMW s)
        (GridController.substations g') (GridController.substations g)
    ∧ (∀ p : addr,
         DemandRequest.setState (DemandRequest.state (σ' !!! p)) (σ !!! p)
         = σ' !!! p)
    ∧ (∀ p : addr, p ∉ GridController.demandQ g → σ' !! p = σ !! p)
    ∧ Forall2 (λ j' j,
                 MaintenanceJob.substationID j' = MaintenanceJob.substationID j
                 ∧ MaintenanceJob.startTime j' = MaintenanceJob.startTime j
                 ∧ MaintenanceJob.endTime j' = MaintenanceJob.endTime j
                 ∧ MaintenanceJob.rank (MaintenanceJob.state j)
                   ≤ MaintenanceJob.rank (MaintenanceJob.state j'))
        (GridController.maintenanceList g') (GridController.maintenanceList g).
Proof.
  destruct (runScheduler_spec now σ g) as (order & _ & Hrun & Hperm & _).
  eexists _, _. split; [exact Hrun|]. simpl.
  split; [|split; [|split]].
  - eapply Forall2_trans; [|apply attempts_sameButUsed
                            |apply updateMaintenance_sameButOnline].
    intros x y z (H1 & H2 & _) (H3 & H4 & _). split; congruence.
  - intros p. apply attempts_setState.
  - intros p Hp. apply attempts_unqueued. by rewrite Hperm.
  - rewrite updateMaintenance_jobs.
    apply Forall2_fmap_l, Forall_Forall2_diag, Forall_forall.
    intros j _. apply advanceState_fields.
Qed.

(** X10. When every pending request asks for more than 0 MW, a substation
    that the maintenance step of the cycle leaves offline comes out of the
    cycle exactly as that step left it: nothing is allocated on it. *)
Theorem offline_substation_untouched (now : Z) (σ : gmap addr DemandRequest.t)
    (g : GridController.t) :
  Forall (λ p, (0 < DemandRequest.megawatts (σ !!! p))%Q)
    (GridController.demandQ g) →
  ∃ (σ' : gmap addr DemandRequest.t) (g' : GridController.t),
    GridController.runScheduler now σ g = Some (σ', g')
    ∧ ∀ (i : nat) (sub : Substation.t),
        (GridController.updateMaintenance now
           (GridController.maintenanceList g)
           (GridController.substations g)).2 !! i = Some sub →
        Substation.online sub = false →
        GridController.substations g' !! i = Some sub.
Proof.
  intros Hmw.
  destruct (runScheduler_spec now σ g) as (order & _ & Hrun & Hperm & _).
  eexists _, _. split; [exact Hrun|]. simpl.
  intros i sub Hi Hoff. apply attempts_offline; [|done|done].
  by rewrite Hperm.
Qed.

Lemma offline_substation_untouched_witness :
  ∃ (σ' : gmap addr DemandRequest.t) (g' : GridController.t),
    GridController.runScheduler 10 Examples.maintained.1 Examples.maintained.2
      = Some (σ', g')
    ∧ GridController.substations g' !! 0%nat
      = Some (Substation.mk "S01" 50 0 false).
Proof.
  destruct (offline_substation_untouched 10
              Examples.maintained.1 Examples.maintained.2)
    as (σ' & g' & Hrun & Hoff).
  - repeat constructor.
  - exists σ', g'. split; [exact Hrun|]. by apply Hoff.
Defined.

Lemma runScheduler_nothing_pending (now : Z) (σ : gmap addr DemandRequest.t)
    (g : GridController.t) :
  GridController.demandQ g = [] →
  GridController.runScheduler now σ g =
    Some (σ, GridController.mk []
               (GridController.updateMaintenance now
                  (GridController.maintenanceList g)
                  (GridController.substations g)).2
               (GridController.updateMaintenance now
                  (GridController.maintenanceList g)
                  (GridController.substations g)).1).
Proof.
  intros Hq. unfold GridController.runScheduler. rewrite Hq.
  by destruct (GridController.updateMaintenance now _ _).
Qed.

(** X11. A second cycle with nothing received in between, at whatever time,
    changes no request and no [used]: the requests that the first cycle shed
    stay Shed, and only online flags and job states can move. *)
Theorem second_cycle_changes_no_request (now1 now2 : Z)
    (σ : gmap addr DemandRequest.t) (g : GridController.t) :
  ∃ (σ1 : gmap addr DemandRequest.t) (g1 g2 : GridController.t),
    GridController.runScheduler now1 σ g = Some (σ1, g1)
    ∧ GridController.runScheduler now2 σ1 g1 = Some (σ1, g2)
    ∧ GridController.demandQ g2 = []
    ∧ Forall2 sameButOnline
        (GridController.substations g2) (GridController.substations g1).
Proof.
  destruct (runScheduler_spec now1 σ g) as (order & _ & Hrun & _ & _).
  eexists _, _, _. split; [exact Hrun|].
  split; [by apply runScheduler_nothing_pending|].
  split; [done|]. apply updateMaintenance_sameButOnline.
Qed.

(** ** What shed requests leave behind *)

Section accounting.
Import GridController.
Implicit Types (σ : gmap addr DemandRequest.t) (subs : list Substation.t).
Implicit Types (mw : Q) (req p : addr) (order : list addr).

(** A request that the attempts leave Shed fits no substation afterwards,
    when all attempted amounts are at least 0. *)
Lemma attempts_shed_unfit order σ subs p :
  Forall (λ q, (0 <= DemandRequest.megawatts (σ !!! q))%Q) order →
  p ∈ order →
  DemandRequest.state ((attempts order (σ, subs)).1 !!! p) = DemandRequest.SHED →
  Forall (λ s, ¬ (DemandRequest.megawatts (σ !!! p) <= Substation.available s)%Q)
    (attempts order (σ, subs)).2.
Proof.
  induction order as [|x order IH] using rev_ind; intros Hmw Hin;
    [by apply elem_of_nil in Hin|].
  apply Forall_app in Hmw as [Hmw Hx]. rewrite Forall_singleton in Hx.
  rewrite attempts_snoc.
  pose proof (attempts_megawatts order σ subs) as Hsame.
  destruct (attempts order (σ, subs)) as [σl subsl] eqn:Hl. simpl in *.
  destruct (decide (p = x)) as [->|Hne].
  - rewrite attempt_state, attempt_eq. simpl. rewrite Hsame.
    destruct (tryAllocate _ subsl).2 eqn:Hok; [done|]. intros _.
    apply tryAllocate_fail in Hok. by rewrite (tryAllocate_none _ _ Hok).
  - rewrite attempt_other by done. intros Hshed.
    rewrite attempt_eq. simpl. apply tryAllocate_unfit; [by rewrite Hsame|].
    apply IH; [done| |done].
    apply elem_of_app in Hin as [Hin|Hin]; [done|].
    by apply list_elem_of_singleton in Hin.
Qed.

(** With no address attempted twice, attempts that leave every request
    Shed leave the substations as they were. *)
Lemma attempts_all_shed order σ subs :
  NoDup order →
  (∀ p, p ∈ order →
     DemandRequest.state ((attempts order (σ, subs)).1 !!! p)
       = DemandRequest.SHED) →
  (attempts order (σ, subs)).2 = subs.
Proof.
  revert σ subs. induction order as [|x order IH]; intros σ subs Hnd Hshed;
    [done|].
  apply NoDup_cons in Hnd as [Hx Hnd].
  rewrite attempts_cons in Hshed |- *.
  pose proof (Hshed x ltac:(left)) as Hfirst.
  destruct (attempt x σ subs) as [σ1 subs1] eqn:Hatt.
  rewrite (attempts_unqueued_total order σ1 subs1 x Hx) in Hfirst.
  assert (subs1 = subs) as ->.
  { pose proof (attempt_state x σ subs) as Hst.
    pose proof (attempt_eq x σ subs) as Heq.
    rewrite Hatt in Hst, Heq. simpl in Hst. rewrite Hfirst in Hst.
    destruct (tryAllocate _ subs).2 eqn:Hok; [done|].
    apply tryAllocate_fail in Hok.
    rewrite (tryAllocate_none _ _ Hok) in Heq. by injection Heq. }
  apply IH; [done|]. intros p Hp. apply Hshed. by right.
Qed.

End accounting.

(** X12. When no address is pending twice, a cycle that leaves every
    pending request Shed takes nothing from the grid: the substations end
    the cycle exactly as the maintenance step left them, [used] included. *)
Theorem cycle_all_shed_takes_nothing (now : Z)
    (σ : gmap addr DemandRequest.t) (g : GridController.t) :
  NoDup (GridController.demandQ g) →
  ∃ (σ' : gmap addr DemandRequest.t) (g' : GridController.t),
    GridController.runScheduler now σ g = Some (σ', g')
    ∧ ((∀ p, p ∈ GridController.demandQ g →
          DemandRequest.state (σ' !!! p) = DemandRequest.SHED) →
       GridController.substations g'
         = (GridController.updateMaintenance now
              (GridController.maintenanceList g)
              (GridController.substations g)).2
       ∧ Forall2 (λ s' s, Substation.usedMW s' = Substation.usedMW s)
           (GridController.substations g') (GridController.substations g)).
Proof.
  intros Hnd.
  destruct (runScheduler_spec now σ g) as (order & _ & Hrun & Hperm & _).
  eexists _, _. split; [exact Hrun|]. simpl. intros Hshed.
  rewrite attempts_all_shed.
  - split; [done|].
    eapply Forall2_impl; [apply updateMaintenance_sameButOnline|].
    by intros x y (_ & _ & Hused).
  - by rewrite Hperm.
  - intros p Hp. apply Hshed. by rewrite <- Hperm.
Qed.

Lemma cycle_all_shed_takes_nothing_witness :
  ∃ (σ' : gmap addr DemandRequest.t) (g' : GridController.t),
    GridController.runScheduler 10 Examples.maintained.1 Examples.maintained.2
      = Some (σ', g')
    ∧ GridController.substations g' = [Substation.mk "S01" 50 0 false].
Proof.
  destruct (cycle_all_shed_takes_nothing 10
              Examples.maintained.1 Examples.maintained.2)
    as (σ' & g' & Hrun & Hsame).
  - apply (bool_decide_unpack _). vm_compute. exact I.
  - exists σ', g'. split; [exact Hrun|].
    injection Hrun as <- <-.
    apply Hsame. intros p Hp.
    apply list_elem_of_singleton in Hp as ->. reflexivity.
Defined.

(** X13. When every pending request asks for at least 0 MW, a request that
    a cycle leaves Shed fits no substation at the end of that cycle either:
    no substation has as much available as it asks for. *)
Theorem shed_request_fits_nowhere (now : Z) (σ : gmap addr DemandRequest.t)
    (g : GridController.t) :
  Forall (λ p, (0 <= DemandRequest.megawatts (σ !!! p))%Q)
    (GridController.demandQ g) →
  ∃ (σ' : gmap addr DemandRequest.t) (g' : GridController.t),
    GridController.runScheduler now σ g = Some (σ', g')
    ∧ ∀ p : addr,
        p ∈ GridController.demandQ g →
        DemandRequest.state (σ' !!! p) = DemandRequest.SHED →
        Forall (λ s, ¬ (DemandRequest.megawatts (σ !!! p)
                          <= Substation.available s)%Q)
          (GridController.substations g').
Proof.
  intros Hmw.
  destruct (runScheduler_spec now σ g) as (order & _ & Hrun & Hperm & _).
  eexists _, _. split; [exact Hrun|]. simpl.
  intros p Hp Hshed. apply attempts_shed_unfit; [|by rewrite Hperm|done].
  by rewrite Hperm.
Qed.

Lemma shed_request_fits_nowhere_witness :
  ∃ (σ' : gmap addr DemandRequest.t) (g' : GridController.t),
    GridController.runScheduler 200
      Scenario.submittedMixed.1 Scenario.submittedMixed.2 = Some (σ', g')
    ∧ Forall (λ s, ¬ (DemandRequest.megawatts
                        (Scenario.submittedMixed.1 !!! 2%positive)
                      <= Substation.available s)%Q)
        (GridController.substations g').
Proof.
  destruct (shed_request_fits_nowhere 200
              Scenario.submittedMixed.1 Scenario.submittedMixed.2)
    as (σ' & g' & Hrun & Hshed).
  - repeat constructor; vm_compute; discriminate.
  - exists σ', g'. split; [exact Hrun|]. apply Hshed.
    + vm_compute. left.
    + vm_compute in Hrun. injection Hrun as <- _. vm_compute. reflexivity.
Defined.

(** ** No inversion of the ordering in the outcome *)

Section no_inversion.
Import GridController.
Implicit Types (σ : gmap addr DemandRequest.t) (subs : list Substation.t).

Lemma attempts_snoc_state (l1 : list addr) (r1 : addr) σ subs :
  DemandRequest.state ((attempts (l1 ++ [r1]) (σ, subs)).1 !!! r1) =
    if (tryAllocate (DemandRequest.megawatts (σ !!! r1))
          (attempts l1 (σ, subs)).2).2
    then DemandRequest.ALLOCATED else DemandRequest.SHED.
Proof.
  rewrite attempts_snoc, attempt_state. by rewrite attempts_megawatts.
Qed.

Lemma attempts_snoc_subs (l1 : list addr) (r1 : addr) σ subs :
  (attempts (l1 ++ [r1]) (σ, subs)).2 =
    (tryAllocate (DemandRequest.megawatts (σ !!! r1)) (attempts l1 (σ, subs)).2).1.
Proof.
  rewrite attempts_snoc, attempt_eq. simpl. by rewrite attempts_megawatts.
Qed.

(** Of two requests attempted in this order, each once, the later and
    larger one is not Allocated unless the earlier one is. *)
Lemma attempts_no_inversion (l1 l2 l3 : list addr) (r1 r2 : addr) σ subs :
  NoDup (l1 ++ r1 :: l2 ++ r2 :: l3) →
  Forall (λ q, (0 <= DemandRequest.megawatts (σ !!! q))%Q)
    (l1 ++ r1 :: l2 ++ r2 :: l3) →
  (DemandRequest.megawatts (σ !!! r1) <= DemandRequest.megawatts (σ !!! r2))%Q →
  DemandRequest.state
    ((attempts (l1 ++ r1 :: l2 ++ r2 :: l3) (σ, subs)).1 !!! r2)
    = DemandRequest.ALLOCATED →
  DemandRequest.state
    ((attempts (l1 ++ r1 :: l2 ++ r2 :: l3) (σ, subs)).1 !!! r1)
    = DemandRequest.ALLOCATED.
Proof.
  intros Hnd Hmw Hle Halloc.
  assert ((r1 ∉ l2 ++ r2 :: l3) ∧ (r2 ∉ l3)) as [Hr1 Hr2].
  { apply NoDup_app in Hnd as (_ & _ & Hnd).
    apply NoDup_cons in Hnd as [Hr1 Hnd]. split; [done|].
    apply NoDup_app in Hnd as (_ & _ & Hnd).
    by apply NoDup_cons in Hnd as [Hr2 _]. }
  assert (Forall (λ q, (0 <= DemandRequest.megawatts (σ !!! q))%Q) l2) as Hmw2.
  { apply Forall_app in Hmw as [_ Hmw]. apply Forall_cons in Hmw as [_ Hmw].
    by apply Forall_app in Hmw as [Hmw _]. }
  (* the state of r2 is the one its attempt wrote *)
  replace (l1 ++ r1 :: l2 ++ r2 :: l3)
    with ((((l1 ++ [r1]) ++ l2) ++ [r2]) ++ l3) in Halloc
    by (by rewrite <- !app_assoc).
  rewrite attempts_app in Halloc.
  destruct (attempts (((l1 ++ [r1]) ++ l2) ++ [r2]) (σ, subs)) as [σd sd] eqn:Hd.
  rewrite attempts_unqueued_total in Halloc by done.
  replace σd with (attempts (((l1 ++ [r1]) ++ l2) ++ [r2]) (σ, subs)).1
    in Halloc by (by rewrite Hd).
  rewrite attempts_snoc_state in Halloc. clear Hd σd sd.
  (* and so is the state of r1 *)
  replace (l1 ++ r1 :: l2 ++ r2 :: l3)
    with ((l1 ++ [r1]) ++ (l2 ++ r2 :: l3)) by (by rewrite <- app_assoc).
  rewrite attempts_app.
  destruct (attempts (l1 ++ [r1]) (σ, subs)) as [σb sb] eqn:Hb.
  rewrite attempts_unqueued_total by done.
  replace σb with (attempts (l1 ++ [r1]) (σ, subs)).1 by (by rewrite Hb).
  rewrite attempts_snoc_state.
  destruct (tryAllocate (DemandRequest.megawatts (σ !!! r1))
              (attempts l1 (σ, subs)).2).2 eqn:Hok1; [done|].
  (* r1 was shed: nothing has room for it, so nothing has room for r2 *)
  exfalso.
  assert (Forall (λ s, ¬ (DemandRequest.megawatts (σ !!! r2)
                            <= Substation.available s)%Q)
            (attempts ((l1 ++ [r1]) ++ l2) (σ, subs)).2) as Hunfit.
  { rewrite attempts_app, Hb.
    eapply Forall_impl.
    - apply (attempts_unfit (DemandRequest.megawatts (σ !!! r1))).
      + eapply Forall_impl; [exact Hmw2|]. intros q Hq. simpl in *.
        replace σb with (attempts (l1 ++ [r1]) (σ, subs)).1 by (by rewrite Hb).
        by rewrite attempts_megawatts.
      + replace sb with (attempts (l1 ++ [r1]) (σ, subs)).2 by (by rewrite Hb).
        rewrite attempts_snoc_subs.
        apply tryAllocate_fail in Hok1.
        by rewrite (tryAllocate_none _ _ Hok1).
    - intros s Hs Hfit. apply Hs. simpl in *. lra. }
  apply tryAllocate_fail in Hunfit. by rewrite Hunfit in Halloc.
Qed.

End no_inversion.

(** X14. When no address is pending twice and every pending request asks
    for at least 0 MW: if the comparator orders request r2 below request r1
    (lower class, or same class and later) and r1 asks for no more than r2,
    then a cycle that leaves r2 Allocated leaves r1 Allocated too. *)
Theorem no_inversion_in_outcome (now : Z) (σ : gmap addr DemandRequest.t)
    (g : GridController.t) (r1 r2 : addr) :
  NoDup (GridController.demandQ g) →
  Forall (λ p, (0 <= DemandRequest.megawatts (σ !!! p))%Q)
    (GridController.demandQ g) →
  r1 ∈ GridController.demandQ g → r2 ∈ GridController.demandQ g →
  CompareDemand (σ !!! r2) (σ !!! r1) = true →
  (DemandRequest.megawatts (σ !!! r1) <= DemandRequest.megawatts (σ !!! r2))%Q →
  ∃ (σ' : gmap addr DemandRequest.t) (g' : GridController.t),
    GridController.runScheduler now σ g = Some (σ', g')
    ∧ (DemandRequest.state (σ' !!! r2) = DemandRequest.ALLOCATED →
       DemandRequest.state (σ' !!! r1) = DemandRequest.ALLOCATED).
Proof.
  intros Hnd Hmw Hin1 Hin2 Hcmp Hle.
  destruct (runScheduler_spec now σ g) as (order & _ & Hrun & Hperm & Hsorted).
  eexists _, _. split; [exact Hrun|]. simpl.
  rewrite <- Hperm in Hnd, Hmw, Hin1, Hin2.
  assert (r1 ≠ r2) as Hne.
  { intros ->. by rewrite (comp_irrefl _ CompareDemand_asym) in Hcmp. }
  destruct (list_elem_of_split _ _ Hin1) as (l1 & rest & ->).
  assert (r2 ∈ rest) as Hrest.
  { apply elem_of_app in Hin2 as [Hin2|Hin2].
    - pose proof (StronglySorted_app_1_elem_of _ _ _ r2 r1 Hsorted Hin2) as Hc.
      simpl in Hc. unfold GridController.comp in Hc.
      rewrite Hcmp in Hc. discriminate Hc. left.
    - by apply elem_of_cons in Hin2 as [->|Hin2]. }
  destruct (list_elem_of_split _ _ Hrest) as (l2 & l3 & ->).
  by apply attempts_no_inversion.
Qed.

Lemma no_inversion_in_outcome_witness :
  ∃ (σ' : gmap addr DemandRequest.t) (g' : GridController.t),
    GridController.runScheduler 200
      Scenario.submittedMixed.1 Scenario.submittedMixed.2 = Some (σ', g')
    ∧ (DemandRequest.state (σ' !!! 1%positive) = DemandRequest.ALLOCATED →
       DemandRequest.state (σ' !!! 3%positive) = DemandRequest.ALLOCATED).
Proof.
  apply (no_inversion_in_outcome 200
           Scenario.submittedMixed.1 Scenario.submittedMixed.2
           3%positive 1%positive).
  - apply (bool_decide_unpack _). vm_compute. exact I.
  - repeat constructor; vm_compute; discriminate.
  - vm_compute. right. right. left.
  - vm_compute. right. left.
  - vm_compute. reflexivity.
  - vm_compute. discriminate.
Defined.

(** ** addSubstation and first fit *)

Lemma tryAllocate_app (mw : Q) (l1 l2 : list Substation.t) :
  GridController.tryAllocate mw (l1 ++ l2) =
    if (GridController.tryAllocate mw l1).2
    then ((GridController.tryAllocate mw l1).1 ++ l2, true)
    else (l1 ++ (GridController.tryAllocate mw l2).1,
          (GridController.tryAllocate mw l2).2).
Proof.
  induction l1 as [|s l1 IH]; simpl.
  - by destruct (GridController.tryAllocate mw l2).
  - destruct (allocate_cases s mw) as [[_ ->]|[_ ->]]; simpl; [done|].
    rewrite IH.
    destruct (GridController.tryAllocate mw l1) as [l1' ok1] eqn:H1. simpl.
    destruct ok1; simpl; [done|].
    assert ((GridController.tryAllocate mw l1).2 = false) as Hfail
      by (by rewrite H1).
    apply tryAllocate_fail in Hfail.
    rewrite (tryAllocate_none _ _ Hfail) in H1. by injection H1 as <-.
Qed.

(** X15. [addSubstation] never refuses: it puts a new, online, unloaded
    substation after the existing ones, also when the name is taken, and
    touches nothing else.  The new substation is the last resort of first
    fit: an amount goes to it only when no earlier substation takes it. *)
Theorem addSubstation_last_resort (i : string) (cap mw : Q)
    (g : GridController.t) :
  GridController.substations (GridController.addSubstation i cap g)
    = GridController.substations g ++ [Substation.mk i cap 0 true]
  ∧ GridController.demandQ (GridController.addSubstation i cap g)
    = GridController.demandQ g
  ∧ GridController.maintenanceList (GridController.addSubstation i cap g)
    = GridController.maintenanceList g
  ∧ ((GridController.tryAllocate mw (GridController.substations g)).2 = true →
     GridController.tryAllocate mw
       (GridController.substations (GridController.addSubstation i cap g))
     = ((GridController.tryAllocate mw (GridController.substations g)).1
          ++ [Substation.mk i cap 0 true], true))
  ∧ ((GridController.tryAllocate mw (GridController.substations g)).2 = false →
     GridController.tryAllocate mw
       (GridController.substations (GridController.addSubstation i cap g))
     = (GridController.substations g
          ++ [(Substation.allocate mw (Substation.mk i cap 0 true)).1],
        (Substation.allocate mw (Substation.mk i cap 0 true)).2)).
Proof.
  unfold GridController.addSubstation, Substation.new. simpl.
  repeat split.
  - intros Hok. by rewrite tryAllocate_app, Hok.
  - intros Hok. rewrite tryAllocate_app, Hok. simpl.
    by destruct (Substation.allocate mw _) as [s' [|]].
Qed.

(** ** showStatus *)

Section status.
Import GridController.
Implicit Types (σ : gmap addr DemandRequest.t).

Lemma best_pointwise {A : Type} (c1 c2 : A → A → bool) (m : A) (q : list A) :
  (∀ a b, c1 a b = c2 a b) → PQ.best c1 m q = PQ.best c2 m q.
Proof.
  intros Hext. revert m. induction q as [|x q IH]; intros m; simpl; [done|].
  by rewrite Hext, IH.
Qed.

Lemma top_pointwise {A : Type} (c1 c2 : A → A → bool) (q : list A) :
  (∀ a b, c1 a b = c2 a b) → PQ.top c1 q = PQ.top c2 q.
Proof.
  intros Hext. destruct q as [|x q]; simpl; [done|].
  by rewrite (best_pointwise c1 c2).
Qed.

Lemma pop_pointwise {A : Type} `{EqDecision A} (c1 c2 : A → A → bool)
    (q : list A) :
  (∀ a b, c1 a b = c2 a b) → PQ.pop c1 q = PQ.pop c2 q.
Proof. intros Hext. unfold PQ.pop. by rewrite (top_pointwise c1 c2). Qed.

(** The loop over the copy pops the requests that the allocation loop pops,
    in the same order. *)
Lemma copyLoop_allocLoop (fuel : nat) σ (st : Pass) (shown : list addr) :
  (∀ a b, comp (heap st) a b = comp σ a b) →
  (length (pending st) ≤ fuel)%nat →
  ∃ (order : list addr) (st' : Pass),
    allocLoop fuel st = Some st'
    ∧ temp st' = temp st ++ order
    ∧ StatusReport.copyLoop fuel σ (pending st) shown = Some (shown ++ order).
Proof.
  revert st shown. induction fuel as [|n IH];
    intros [σ1 q sbs tmp] shown Hcomp Hlen; simpl in *.
  - destruct q; [|simpl in Hlen; lia]. simpl.
    exists [], (mkPass σ1 [] sbs tmp). by rewrite !app_nil_r.
  - rewrite <- (top_pointwise (comp σ1) (comp σ)) by done.
    rewrite <- (pop_pointwise (comp σ1) (comp σ)) by done.
    destruct (PQ.top (comp σ1) q) as [req|] eqn:Htop.
    + pose proof (pop_perm _ (comp_heap_asym σ1) (comp_heap_negtrans σ1) q req Htop)
        as Hperm.
      destruct (attempt req σ1 sbs) as [σ' sbs'] eqn:Hatt.
      destruct (IH (mkPass σ' (PQ.pop (comp σ1) q) sbs' (tmp ++ [req]))
                  (shown ++ [req])) as (order & st' & Hloop & Htemp & Hcopy).
      { intros a b. simpl.
        replace σ' with (attempt req σ1 sbs).1 by (by rewrite Hatt).
        by rewrite comp_attempt. }
      { simpl. apply Permutation_length in Hperm. simpl in Hperm. lia. }
      simpl in *. exists (req :: order), st'.
      rewrite Hloop, Htemp, Hcopy. by rewrite <- !app_assoc.
    + exists [], (mkPass σ1 q sbs tmp). by rewrite !app_nil_r.
Qed.

End status.

(** X16. [showStatus] always completes and changes nothing.  It shows one
    line for each substation and each maintenance job, in list order, and
    one line for each pending request, in exactly the order in which the
    next cycle pops and attempts the requests. *)
Theorem showStatus_lists_attempt_order (now : Z)
    (σ : gmap addr DemandRequest.t) (g : GridController.t) :
  ∃ (report : StatusReport.t) (st : GridController.Pass),
    StatusReport.showStatus σ g = Some report
    ∧ GridController.allocationPass now σ g = Some st
    ∧ GridController.temp st ≡ₚ GridController.demandQ g
    ∧ StatusReport.demandLines report
      = (λ r, StatusReport.demandLine (σ !!! r)) <$> GridController.temp st
    ∧ StatusReport.substationLines report
      = StatusReport.substationLine <$> GridController.substations g
    ∧ StatusReport.maintenanceLines report
      = StatusReport.maintenanceLine <$> GridController.maintenanceList g.
Proof.
  destruct (runScheduler_spec now σ g) as (order & Hpass & _ & Hperm & _).
  unfold GridController.allocationPass in *.
  destruct (copyLoop_allocLoop (length (GridController.demandQ g)) σ
              (GridController.mkPass σ (GridController.demandQ g)
                 (GridController.updateMaintenance now
                    (GridController.maintenanceList g)
                    (GridController.substations g)).2 []) [])
    as (order' & st' & Hloop & Htemp & Hcopy); [done|done|].
  simpl in *. unfold StatusReport.showStatus. rewrite Hcopy.
  eexists _, st'. split; [reflexivity|]. split; [exact Hloop|].
  rewrite Hloop in Hpass. injection Hpass as ->. simpl in *. subst order'.
  by repeat split.
Qed.

(** ** The command loop *)

Section cli.
Import GridController Cli.
Implicit Types (w : World) (l : Line) (now : Z).

Lemma showStatus_total (σ : gmap addr DemandRequest.t) (g : GridController.t) :
  ∃ report, StatusReport.showStatus σ g = Some report.
Proof.
  destruct (copyLoop_allocLoop (length (demandQ g)) σ
              (mkPass σ (demandQ g) [] []) []) as (order & st' & _ & _ & Hcopy);
    [done|done|].
  simpl in Hcopy. unfold StatusReport.showStatus. rewrite Hcopy. by eexists.
Qed.

Lemma step_total now l w : ∃ o, step now l w = Some o.
Proof.
  unfold step. repeat case_decide; try by eexists.
  - destruct (reportOperands l) as [[[cid type] mw]|]; [|by eexists].
    destruct (makeRequest now cid type mw); by eexists.
  - destruct (runScheduler_spec now (objects w) (grid w))
      as (order & _ & -> & _). by eexists.
  - destruct (maintenanceOperands l) as [[sid delaySec]|]; by eexists.
  - destruct (showStatus_total (objects w) (grid w)) as [report ->]. by eexists.
Qed.

(** The world after an accepted [report]. *)
Lemma report_sound w (a : addr) (d : DemandRequest.t) :
  sound w → objects w !! a = None →
  sound (mkWorld (writeState a DemandRequest.QUEUED (<[a := d]> (objects w)))
           (mk (PQ.push a (demandQ (grid w))) (substations (grid w))
              (maintenanceList (grid w)))).
Proof.
  intros (Hid & Hcap & Hnd & Hq & Hrest) Hfresh.
  assert (a ∉ demandQ (grid w)) as Hnotin.
  { intros Hin. destruct (Hq a Hin) as (r & Hr & _). congruence. }
  unfold sound, writeState, PQ.push. simpl.
  rewrite lookup_total_insert_eq, insert_insert_eq.
  split; [done|]. split; [done|]. split; [|split].
  - apply NoDup_app. split; [done|]. split; [|apply NoDup_singleton].
    intros x Hx ->%list_elem_of_singleton. done.
  - intros x [Hx| ->%list_elem_of_singleton]%elem_of_app.
    + rewrite lookup_insert_ne by (by intros ->). by apply Hq.
    + rewrite lookup_insert_eq. by eexists.
  - intros x r Hx Hnot. apply not_elem_of_app in Hnot as [Hnot Hxa].
    rewrite lookup_insert_ne in Hx
      by (intros ->; apply Hxa; by apply list_elem_of_singleton).
    by apply (Hrest x r).
Qed.

Lemma Forall2_id_capacity (l k : list Substation.t) :
  Forall2 (λ s' s, Substation.id s' = Substation.id s
                   ∧ Substation.capacityMW s' = Substation.capacityMW s) l k →
  Substation.id <$> l = Substation.id <$> k
  ∧ Substation.capacityMW <$> l = Substation.capacityMW <$> k.
Proof.
  induction 1 as [|x y l k [Hid Hcap] _ [IH1 IH2]]; [done|].
  rewrite !fmap_cons. by rewrite Hid, Hcap, IH1, IH2.
Qed.

Lemma cycle_substations (now : Z) (order : list addr)
    (σ : gmap addr DemandRequest.t) (g : GridController.t) :
  Forall2 (λ s' s, Substation.id s' = Substation.id s
                   ∧ Substation.capacityMW s' = Substation.capacityMW s)
    (attempts order
       (σ, (updateMaintenance now (maintenanceList g) (substations g)).2)).2
    (substations g).
Proof.
  eapply Forall2_trans; [|apply attempts_sameButUsed
                          |apply updateMaintenance_sameButOnline].
  intros x y z (H1 & H2 & _) (H3 & H4 & _). split; congruence.
Qed.

(** The world after [balance]. *)
Lemma balance_sound now w (σ' : gmap addr DemandRequest.t)
    (g' : GridController.t) :
  sound w → runScheduler now (objects w) (grid w) = Some (σ', g') →
  sound (mkWorld σ' g').
Proof.
  intros (Hid & Hcap & Hnd & Hq & Hrest) Hrun.
  destruct (runScheduler_spec now (objects w) (grid w))
    as (order & _ & Hrun' & Hperm & _).
  rewrite Hrun' in Hrun. injection Hrun as <- <-.
  unfold sound. simpl.
  destruct (Forall2_id_capacity _ _ (cycle_substations now order (objects w) (grid w)))
    as [-> ->].
  split; [done|]. split; [done|]. split; [constructor|].
  split; [by intros a ?%elem_of_nil|].
  intros a r Ha _.
  destruct (decide (a ∈ order)) as [Hin|Hnotin].
  - pose proof (attempts_settled order (objects w)
                  (updateMaintenance now (maintenanceList (grid w))
                     (substations (grid w))).2 a Hin) as Hs.
    by rewrite (lookup_total_correct _ _ _ Ha) in Hs.
  - rewrite attempts_unqueued in Ha by done.
    apply (Hrest a r Ha). by rewrite <- Hperm.
Qed.

Lemma step_sound now l w (r : Reply) (w' : World) :
  sound w → step now l w = Some (Continue r w') → sound w'.
Proof.
  intros Hs. unfold step. repeat case_decide;
    try (intros [= _ <-]; exact Hs); try discriminate.
  - destruct (reportOperands l) as [[[cid type] mw]|];
      [|intros [= _ <-]; exact Hs].
    destruct (makeRequest now cid type mw) as [d|];
      [|intros [= _ <-]; exact Hs].
    simpl. intros [= _ <-]. apply report_sound; [done|].
    apply not_elem_of_dom, is_fresh.
  - destruct (runScheduler now (objects w) (grid w)) as [[σ' g']|] eqn:Hrun;
      [|discriminate].
    intros [= _ <-]. by eapply balance_sound.
  - destruct (maintenanceOperands l) as [[sid delaySec]|];
      intros [= _ <-]; exact Hs.
  - destruct (StatusReport.showStatus (objects w) (grid w));
      [intros [= _ <-]; exact Hs|discriminate].
Qed.

Lemma session_sound (inputs : list (Z * Line)) w :
  sound w → ∃ rs w', session inputs w = Some (rs, w') ∧ sound w'.
Proof.
  revert w. induction inputs as [|[now l] inputs IH]; intros w Hs; simpl.
  - by eexists _, _.
  - destruct (step_total now l w) as [[r|r w1] Hstep]; rewrite Hstep.
    + by eexists _, _.
    + destruct (IH w1) as (rs & w' & -> & Hs'); [by eapply step_sound|].
      by eexists _, _.
Qed.

End cli.

(** X17. Every run of [main] completes, whatever the lines of its input, and
    at the end the grid still has the substations S01, S02 and S03 with 50,
    40 and 60 MW; no address is pending twice; every pending address holds a
    Queued request; every other request is Allocated or Shed, so none is
    ever Created or Completed there. *)
Theorem main_keeps_world_sound (inputs : list (Z * Cli.Line)) :
  ∃ (rs : list Cli.Reply) (w : Cli.World),
    Cli.main inputs = Some (rs, w) ∧ Cli.sound w.
Proof.
  apply session_sound. unfold Cli.sound. simpl.
  split; [done|]. split; [done|]. split; [constructor|].
  split; [by intros a ?%elem_of_nil|].
  intros a r Ha. by rewrite lookup_empty in Ha.
Qed.

(** X18. A [report] whose operands cannot be extracted, or whose type is
    none of res, com and ind, creates no request and leaves the heap and
    the grid as they were; the loop goes on. *)
Theorem report_rejected (now : Z) (l : Cli.Line) (w : Cli.World) :
  Cli.cmd l = "report" →
  (∀ (cid type : string) (mw : Q),
     Cli.reportOperands l = Some (cid, type, mw) →
     type ≠ "res" ∧ type ≠ "com" ∧ type ≠ "ind") →
  Cli.step now l w
  = Some (Cli.Continue
            (match Cli.reportOperands l with
             | Some _ => Cli.InvalidType
             | None => Cli.UsageReport
             end) w).
Proof.
  intros Hcmd Htype. unfold Cli.step. rewrite Hcmd. simpl.
  destruct (Cli.reportOperands l) as [[[cid type] mw]|]; [|done].
  destruct (Htype cid type mw eq_refl) as (H1 & H2 & H3).
  unfold Cli.makeRequest. by rewrite !decide_False by done.
Qed.

Lemma report_rejected_witness :
  Cli.step 100 (Cli.mkLine "report" (Some ("C1", "gov", 5%Q)) None)
    (Cli.mkWorld ∅ Cli.initialGrid)
  = Some (Cli.Continue Cli.InvalidType (Cli.mkWorld ∅ Cli.initialGrid)).
Proof.
  apply (report_rejected 100
           (Cli.mkLine "report" (Some ("C1", "gov", 5%Q)) None)
           (Cli.mkWorld ∅ Cli.initialGrid)).
  - reflexivity.
  - intros cid type mw [= _ <- _]. repeat split; discriminate.
Defined.

(** X19. An accepted [report] puts a new object at an address that held
    none: Queued, created at [now], with the consumer and the megawatts of
    the line and the priority of its type (res 1, com 2, ind 3).  The
    address joins the pending ordering; every other object, the
    substations and the maintenance list stay as they were. *)
Theorem report_accepted (now : Z) (l : Cli.Line) (w : Cli.World)
    (cid type : string) (mw : Q) :
  Cli.cmd l = "report" →
  Cli.reportOperands l = Some (cid, type, mw) →
  type = "res" ∨ type = "com" ∨ type = "ind" →
  ∃ (a : addr) (w' : Cli.World),
    Cli.step now l w = Some (Cli.Continue (Cli.DemandRecorded cid) w')
    ∧ Cli.objects w !! a = None
    ∧ Cli.objects w' !! a
      = Some (DemandRequest.mk cid mw now DemandRequest.QUEUED
                (if decide (type = "res") then DemandRequest.Residential
                 else if decide (type = "com") then DemandRequest.Commercial
                 else DemandRequest.Industrial))
    ∧ (∀ p : addr, p ≠ a → Cli.objects w' !! p = Cli.objects w !! p)
    ∧ GridController.demandQ (Cli.grid w')
      ≡ₚ a :: GridController.demandQ (Cli.grid w)
    ∧ GridController.substations (Cli.grid w')
      = GridController.substations (Cli.grid w)
    ∧ GridController.maintenanceList (Cli.grid w')
      = GridController.maintenanceList (Cli.grid w).
Proof.
  intros Hcmd Hops Htype.
  assert (Cli.objects w !! fresh (dom (Cli.objects w)) = None) as Hfresh
    by apply not_elem_of_dom, is_fresh.
  unfold Cli.step. rewrite Hcmd, Hops. simpl. unfold Cli.makeRequest.
  destruct Htype as [-> | [-> | ->]]; simpl;
    exists (fresh (dom (Cli.objects w))); eexists;
    (split; [reflexivity|]); simpl;
    unfold GridController.writeState, PQ.push;
    rewrite lookup_total_insert_eq, insert_insert_eq, lookup_insert_eq;
    (split; [done|]); (split; [done|]);
    (split; [by intros p Hp; rewrite lookup_insert_ne by done|]);
    (split; [by rewrite Permutation_app_comm|done]).
Qed.

Lemma report_accepted_witness :
  ∃ (a : addr) (w' : Cli.World),
    Cli.step 100 (Cli.mkLine "report" (Some ("C1", "ind", 30%Q)) None)
      (Cli.mkWorld ∅ Cli.initialGrid)
    = Some (Cli.Continue (Cli.DemandRecorded "C1") w')
    ∧ Cli.objects w' !! a
      = Some (DemandRequest.mk "C1" 30 100 DemandRequest.QUEUED
                DemandRequest.Industrial).
Proof.
  destruct (report_accepted 100
              (Cli.mkLine "report" (Some ("C1", "ind", 30%Q)) None)
              (Cli.mkWorld ∅ Cli.initialGrid) "C1" "ind" 30%Q)
    as (a & w' & Hstep & _ & Hobj & _); [reflexivity|reflexivity|by right; right|].
  by exists a, w'.
Defined.

(** X20. An accepted [maintenance] command at time [now] appends exactly
    one Scheduled job, for the name on the line, whose window starts
    [delaySec] after [now] and lasts 3600 seconds, whether or not a
    substation bears that name; the job is InProgress after an advance to
    time [t] exactly when [now + delaySec <= t < now + delaySec + 3600].
    The heap, the substations and the pending ordering stay as they were. *)
Theorem maintenance_command_window (now : Z) (l : Cli.Line) (w : Cli.World)
    (sid : string) (delaySec : Z) :
  Cli.cmd l = "maintenance" →
  Cli.maintenanceOperands l = Some (sid, delaySec) →
  Cli.step now l w
  = Some (Cli.Continue (Cli.MaintenanceScheduled sid delaySec)
            (Cli.mkWorld (Cli.objects w)
               (GridController.mk
                  (GridController.demandQ (Cli.grid w))
                  (GridController.substations (Cli.grid w))
                  (GridController.maintenanceList (Cli.grid w)
                     ++ [MaintenanceJob.mk sid (now + delaySec)
                           (now + delaySec + 3600) MaintenanceJob.SCHEDULED]))))
  ∧ ∀ t : Z,
      MaintenanceJob.state
        (MaintenanceJob.advanceState t
           (MaintenanceJob.mk sid (now + delaySec) (now + delaySec + 3600)
              MaintenanceJob.SCHEDULED))
      = MaintenanceJob.IN_PROGRESS
      ↔ now + delaySec ≤ t < now + delaySec + 3600.
Proof.
  intros Hcmd Hops. split.
  - unfold Cli.step. by rewrite Hcmd, Hops.
  - intros t. unfold MaintenanceJob.advanceState. simpl. rewrite !Z.geb_leb.
    destruct (Z.leb_spec (now + delaySec) t); simpl;
      destruct (Z.leb_spec (now + delaySec + 3600) t); simpl;
      split; intros; try done; lia.
Qed.

Lemma maintenance_command_window_witness :
  MaintenanceJob.state
    (MaintenanceJob.advanceState 400
       (MaintenanceJob.mk "S02" (100 + 300) (100 + 300 + 3600)
          MaintenanceJob.SCHEDULED))
  = MaintenanceJob.IN_PROGRESS.
Proof.
  apply (proj2 (maintenance_command_window 100
                  (Cli.mkLine "maintenance" None (Some ("S02", 300)))
                  (Cli.mkWorld ∅ Cli.initialGrid) "S02" 300
                  eq_refl eq_refl) 400).
  lia.
Defined.

(** X21. [exit] ends the loop: it prints its message, changes nothing, and
    no line after it is handled. *)
Theorem exit_ends_session (pre post : list (Z * Cli.Line)) (now : Z)
    (l : Cli.Line) (w : Cli.World) :
  Cli.cmd l = "exit" →
  Cli.session [(now, l)] w = Some ([Cli.Goodbye], w)
  ∧ Cli.session (pre ++ (now, l) :: post) w
    = Cli.session (pre ++ [(now, l)]) w.
Proof.
  intros Hcmd.
  assert (Cli.step now l = λ w0, Some (Cli.Break Cli.Goodbye)) as Hstep.
  { unfold Cli.step. by rewrite Hcmd. }
  split; [simpl; by rewrite Hstep|].
  revert w. induction pre as [|[t k] pre IH]; intros w; simpl.
  - by rewrite Hstep.
  - destruct (Cli.step t k w) as [[r|r w1]|]; [done| |done].
    by rewrite IH.
Qed.

Lemma exit_ends_session_witness :
  Cli.session
    ([] ++ (5, Cli.mkLine "exit" None None)
        :: [(6, Cli.mkLine "balance" None None)])
    (Cli.mkWorld ∅ Cli.initialGrid)
  = Cli.session ([] ++ [(5, Cli.mkLine "exit" None None)])
      (Cli.mkWorld ∅ Cli.initialGrid).
Proof.
  apply (proj2 (exit_ends_session []
                  [(6, Cli.mkLine "balance" None None)] 5
                  (Cli.mkLine "exit" None None)
                  (Cli.mkWorld ∅ Cli.initialGrid) eq_refl)).
Defined.

(** ** Capacity over a whole run *)

Section cli_limits.
Import GridController Cli.
Implicit Types (w : World) (l : Line) (now : Z).

Lemma makeRequest_megawatts now (cid type : string) (mw : Q)
    (d : DemandRequest.t) :
  makeRequest now cid type mw = Some d → DemandRequest.megawatts d = mw.
Proof.
  unfold makeRequest. repeat case_decide; intros [= <-]; done.
Qed.

Lemma step_limits now l w (r : Reply) (w' : World) :
  sound w → withinLimits w →
  match reportOperands l with
  | Some (_, _, mw) => (0 <= mw)%Q
  | None => True
  end →
  step now l w = Some (Continue r w') → withinLimits w'.
Proof.
  intros Hs [Hsubs Hq] Hmw. unfold step. repeat case_decide;
    try (intros [= _ <-]; by split); try discriminate.
  - destruct (reportOperands l) as [[[cid type] mw]|];
      [|intros [= _ <-]; by split].
    destruct (makeRequest now cid type mw) as [d|] eqn:Hd;
      [|intros [= _ <-]; by split].
    simpl. intros [= _ <-]. split; [done|]. simpl.
    assert (objects w !! fresh (dom (objects w)) = None) as Hfresh
      by apply not_elem_of_dom, is_fresh.
    unfold writeState, PQ.push.
    rewrite lookup_total_insert_eq, insert_insert_eq.
    intros a [Ha| ->%list_elem_of_singleton]%elem_of_app.
    + destruct Hs as (_ & _ & _ & Hlive & _).
      destruct (Hlive a Ha) as (ra & Hra & _).
      rewrite lookup_total_insert_ne by (intros <-; congruence).
      by apply Hq.
    + rewrite lookup_total_insert_eq. simpl.
      by rewrite (makeRequest_megawatts _ _ _ _ _ Hd).
  - destruct (runScheduler_spec now (objects w) (grid w))
      as (order & _ & -> & Hperm & _).
    intros [= _ <-]. split; simpl; [|by intros a ?%elem_of_nil].
    apply attempts_within; [by apply updateMaintenance_within|].
    apply Forall_forall. intros a Ha. apply Hq. by rewrite <- Hperm.
  - destruct (maintenanceOperands l) as [[sid delaySec]|];
      intros [= _ <-]; by split.
  - destruct (StatusReport.showStatus (objects w) (grid w));
      [intros [= _ <-]; by split|discriminate].
Qed.

Lemma session_limits (inputs : list (Z * Line)) w :
  sound w → withinLimits w → reportsAtLeastZero inputs →
  ∃ rs w', session inputs w = Some (rs, w') ∧ withinLimits w'.
Proof.
  revert w. induction inputs as [|[now l] inputs IH]; intros w Hs Hl Hin; simpl.
  - by eexists _, _.
  - apply Forall_cons in Hin as [Hmw Hin]. simpl in Hmw.
    destruct (step_total now l w) as [[r|r w1] Hstep]; rewrite Hstep.
    + by eexists _, _.
    + destruct (IH w1) as (rs & w' & -> & Hl');
        [by eapply step_sound|by eapply step_limits|done|].
      by eexists _, _.
Qed.

End cli_limits.

(** X22. In a run of [main] whose [report] lines carry no negative amount,
    every substation ends with [0 <= used <= capacity], and every request
    still pending asks for at least 0 MW. *)
Theorem main_within_capacity (inputs : list (Z * Cli.Line)) :
  Cli.reportsAtLeastZero inputs →
  ∃ (rs : list Cli.Reply) (w : Cli.World),
    Cli.main inputs = Some (rs, w) ∧ Cli.withinLimits w.
Proof.
  intros Hin. apply session_limits; [| |done].
  - unfold Cli.sound. simpl.
    split; [done|]. split; [done|]. split; [constructor|].
    split; [by intros a ?%elem_of_nil|].
    intros a r Ha. by rewrite lookup_empty in Ha.
  - split; simpl; [|by intros a ?%elem_of_nil].
    repeat constructor; vm_compute; discriminate.
Qed.

Lemma main_within_capacity_witness :
  ∃ (rs : list Cli.Reply) (w : Cli.World),
    Cli.main [(100, Cli.mkLine "report" (Some ("C1", "ind", 70%Q)) None);
              (101, Cli.mkLine "report" (Some ("C2", "res", 45%Q)) None);
              (102, Cli.mkLine "balance" None None)]
    = Some (rs, w)
    ∧ Cli.withinLimits w.
Proof.
  apply (main_within_capacity
           [(100, Cli.mkLine "report" (Some ("C1", "ind", 70%Q)) None);
            (101, Cli.mkLine "report" (Some ("C2", "res", 45%Q)) None);
            (102, Cli.mkLine "balance" None None)]).
  repeat constructor; vm_compute; discriminate.
Defined.

(** ** Load is never released *)

Section never_released.
Import GridController.
Implicit Types (σ : gmap addr DemandRequest.t) (subs : list Substation.t).

Lemma tryAllocate_grows (mw : Q) subs :
  (0 <= mw)%Q →
  Forall2 (λ s' s, (Substation.usedMW s <= Substation.usedMW s')%Q)
    (tryAllocate mw subs).1 subs.
Proof.
  intros Hmw. induction subs as [|s subs IH]; simpl; [constructor|].
  destruct (allocate_cases s mw) as [[_ ->]|[_ ->]]; simpl.
  - constructor; [simpl; lra|].
    apply Forall_Forall2_diag, Forall_forall. intros. lra.
  - destruct (tryAllocate mw subs) as [rest' allocated].
    constructor; [lra|done].
Qed.

Lemma attempts_grow (order : list addr) σ subs :
  Forall (λ p, (0 <= DemandRequest.megawatts (σ !!! p))%Q) order →
  Forall2 (λ s' s, (Substation.usedMW s <= Substation.usedMW s')%Q)
    (attempts order (σ, subs)).2 subs.
Proof.
  revert σ subs. induction order as [|req order IH]; intros σ subs Hmw.
  - apply Forall_Forall2_diag, Forall_forall. intros. simpl. lra.
  - apply Forall_cons in Hmw as [Hreq Hmw].
    rewrite attempts_cons, attempt_eq.
    eapply Forall2_trans; [|apply IH|by apply tryAllocate_grows].
    + intros x y z Hxy Hyz. simpl in *. lra.
    + eapply Forall_impl; [exact Hmw|]. intros p Hp. simpl in *.
      by rewrite (proj1 (proj2 (writeState_fields σ req p _))).
Qed.

End never_released.

(** X23. When every pending request asks for at least 0 MW, a cycle
    releases nothing: no substation ends the cycle with less [used] than it
    had at its start. *)
Theorem cycle_never_releases (now : Z) (σ : gmap addr DemandRequest.t)
    (g : GridController.t) :
  Forall (λ p, (0 <= DemandRequest.megawatts (σ !!! p))%Q)
    (GridController.demandQ g) →
  ∃ (σ' : gmap addr DemandRequest.t) (g' : GridController.t),
    GridController.runScheduler now σ g = Some (σ', g')
    ∧ Forall2 (λ s' s, (Substation.usedMW s <= Substation.usedMW s')%Q)
        (GridController.substations g') (GridController.substations g).
Proof.
  intros Hmw.
  destruct (runScheduler_spec now σ g) as (order & _ & Hrun & Hperm & _).
  eexists _, _. split; [exact Hrun|]. simpl.
  eapply Forall2_trans;
    [|apply attempts_grow; by rewrite Hperm
     |apply updateMaintenance_sameButOnline].
  intros x y z Hxy (_ & _ & Hyz). simpl in *. rewrite <- Hyz. done.
Qed.

Lemma cycle_never_releases_witness :
  ∃ (σ' : gmap addr DemandRequest.t) (g' : GridController.t),
    GridController.runScheduler 200
      Scenario.submittedMixed.1 Scenario.submittedMixed.2 = Some (σ', g')
    ∧ Forall2 (λ s' s, (Substation.usedMW s <= Substation.usedMW s')%Q)
        (GridController.substations g')
        (GridController.substations Scenario.submittedMixed.2).
Proof.
  apply (cycle_never_releases 200
           Scenario.submittedMixed.1 Scenario.submittedMixed.2).
  repeat constructor; vm_compute; discriminate.
Defined.

(** ** The comparator is a strict weak ordering *)

(** X24. [CompareDemand] is irreflexive, asymmetric and transitive, and so
    is its incomparability, which holds exactly between requests of the
    same priority class and the same timestamp: the strict weak ordering
    that [std::priority_queue] asks of its comparator. *)
Theorem CompareDemand_strict_weak_order (x y z : DemandRequest.t) :
  CompareDemand x x = false
  ∧ (CompareDemand x y = true → CompareDemand y x = false)
  ∧ (CompareDemand x y = true → CompareDemand y z = true →
     CompareDemand x z = true)
  ∧ (CompareDemand x y = false → CompareDemand y z = false →
     CompareDemand x z = false)
  ∧ (CompareDemand x y = false ∧ CompareDemand y x = false
     ↔ DemandRequest.priority x = DemandRequest.priority y
       ∧ DemandRequest.timestamp x = DemandRequest.timestamp y).
Proof.
  unfold CompareDemand. rewrite !Z.gtb_ltb.
  repeat split; intros;
    repeat match goal with H : _ ∧ _ |- _ => destruct H end;
    repeat case_match; rewrite ?negb_true_iff, ?negb_false_iff in *; lia.
Qed.

(** ** Lines that change nothing *)

(** X25. A line whose command word is none of exit, report, balance and
    maintenance (help, status, an empty line, an unknown word) leaves the
    heap and the grid as they were, and the loop goes on; an unknown word
    is answered as such. *)
Theorem other_commands_change_nothing (now : Z) (l : Cli.Line) (w : Cli.World) :
  Cli.cmd l ≠ "exit" → Cli.cmd l ≠ "report" →
  Cli.cmd l ≠ "balance" → Cli.cmd l ≠ "maintenance" →
  (∃ r : Cli.Reply, Cli.step now l w = Some (Cli.Continue r w))
  ∧ (Cli.cmd l ≠ "help" → Cli.cmd l ≠ "status" → Cli.cmd l ≠ "" →
     Cli.step now l w = Some (Cli.Continue Cli.UnknownCommand w)).
Proof.
  intros H1 H2 H3 H4. unfold Cli.step.
  rewrite (decide_False (P := Cli.cmd l = "exit")) by done.
  rewrite (decide_False (P := Cli.cmd l = "report")) by done.
  rewrite (decide_False (P := Cli.cmd l = "balance")) by done.
  rewrite (decide_False (P := Cli.cmd l = "maintenance")) by done.
  split.
  - repeat case_decide; try by eexists.
    destruct (showStatus_total (Cli.objects w) (Cli.grid w)) as [report ->].
    by eexists.
  - intros H5 H6 H7. by rewrite !decide_False by done.
Qed.

Lemma other_commands_change_nothing_witness :
  Cli.step 7 (Cli.mkLine "shutdown" None None) (Cli.mkWorld ∅ Cli.initialGrid)
  = Some (Cli.Continue Cli.UnknownCommand (Cli.mkWorld ∅ Cli.initialGrid)).
Proof.
  apply (proj2 (other_commands_change_nothing 7
                  (Cli.mkLine "shutdown" None None)
                  (Cli.mkWorld ∅ Cli.initialGrid)
                  ltac:(discriminate) ltac:(discriminate)
                  ltac:(discriminate) ltac:(discriminate)));
    discriminate.
Defined.

(** ** Gating with one job for each substation *)

Section one_job_each.
Import GridController.
Implicit Types (jobs : list MaintenanceJob.t) (subs : list Substation.t).

(** Jobs that do not name a substation leave its flag alone. *)
Lemma updateMaintenance_unnamed (now : Z) jobs subs (i : nat)
    (sub : Substation.t) :
  (∀ job, job ∈ jobs → MaintenanceJob.substationID job ≠ Substation.id sub) →
  subs !! i = Some sub →
  (updateMaintenance now jobs subs).2 !! i = Some sub.
Proof.
  revert subs. induction jobs as [|j jobs IH]; intros subs Hno Hi; simpl; [done|].
  specialize (IH (applyJob (MaintenanceJob.advanceState now j) <$> subs)).
  destruct (updateMaintenance now jobs _) as [rest' subs']. simpl in *.
  apply IH; [intros job Hjob; apply Hno; by right|].
  rewrite list_lookup_fmap, Hi. simpl. f_equal.
  unfold applyJob. rewrite decide_False; [done|].
  rewrite (proj1 (advanceState_fields now j)).
  intros Heq. apply (Hno j); [left|done].
Qed.

(** With at most one job for each name, the job of a substation writes its
    flag and no other job overwrites it. *)
Lemma updateMaintenance_own_job (now : Z) jobs subs (i : nat)
    (sub : Substation.t) (job : MaintenanceJob.t) :
  NoDup (MaintenanceJob.substationID <$> jobs) →
  job ∈ jobs → MaintenanceJob.substationID job = Substation.id sub →
  subs !! i = Some sub →
  (updateMaintenance now jobs subs).2 !! i =
    Some (Substation.setOnline
            (negb (bool_decide
                     (MaintenanceJob.state (MaintenanceJob.advanceState now job)
                      = MaintenanceJob.IN_PROGRESS)))
            sub).
Proof.
  revert subs. induction jobs as [|j jobs IH]; intros subs Hnd Hin Hid Hi;
    [by apply elem_of_nil in Hin|].
  rewrite fmap_cons in Hnd. apply NoDup_cons in Hnd as [Hj Hnd]. simpl.
  pose proof (updateMaintenance_unnamed now jobs
                (applyJob (MaintenanceJob.advanceState now j) <$> subs) i) as Hun.
  specialize (IH (applyJob (MaintenanceJob.advanceState now j) <$> subs) Hnd).
  destruct (updateMaintenance now jobs _) as [rest' subs']. simpl in *.
  apply elem_of_cons in Hin as [->|Hin].
  - apply Hun.
    + simpl. intros job' Hjob' Heq. apply Hj.
      apply list_elem_of_fmap. exists job'. split; [|done]. congruence.
    + rewrite list_lookup_fmap, Hi. simpl. f_equal.
      unfold applyJob. rewrite decide_True; [done|].
      by rewrite (proj1 (advanceState_fields now j)).
  - apply IH; [done|done|].
    rewrite list_lookup_fmap, Hi. simpl. f_equal.
    unfold applyJob. rewrite decide_False; [done|].
    rewrite (proj1 (advanceState_fields now j)).
    intros Heq. apply Hj. apply list_elem_of_fmap. exists job.
    split; [congruence|done].
Qed.

End one_job_each.

(** X26. When no two maintenance jobs name the same substation and every
    pending request asks for more than 0 MW, a cycle gates as intended: a
    substation whose job is InProgress after the advance ends the cycle
    offline with its [used] untouched, and a substation whose job is not
    InProgress ends it online. *)
Theorem gating_with_one_job_each (now : Z) (σ : gmap addr DemandRequest.t)
    (g : GridController.t) :
  NoDup (MaintenanceJob.substationID <$> GridController.maintenanceList g) →
  Forall (λ p, (0 < DemandRequest.megawatts (σ !!! p))%Q)
    (GridController.demandQ g) →
  ∃ (σ' : gmap addr DemandRequest.t) (g' : GridController.t),
    GridController.runScheduler now σ g = Some (σ', g')
    ∧ GridController.maintenanceList g'
      = MaintenanceJob.advanceState now <$> GridController.maintenanceList g
    ∧ ∀ (i : nat) (sub : Substation.t) (job : MaintenanceJob.t),
        GridController.substations g !! i = Some sub →
        job ∈ GridController.maintenanceList g →
        MaintenanceJob.substationID job = Substation.id sub →
        (MaintenanceJob.state (MaintenanceJob.advanceState now job)
           = MaintenanceJob.IN_PROGRESS →
         GridController.substations g' !! i
           = Some (Substation.setOnline false sub))
        ∧ (MaintenanceJob.state (MaintenanceJob.advanceState now job)
             ≠ MaintenanceJob.IN_PROGRESS →
           ∃ sub' : Substation.t,
             GridController.substations g' !! i = Some sub'
             ∧ Substation.online sub' = true).
Proof.
  intros Hnd Hmw.
  destruct (runScheduler_spec now σ g) as (order & _ & Hrun & Hperm & _).
  eexists _, _. split; [exact Hrun|]. simpl.
  split; [apply updateMaintenance_jobs|].
  intros i sub job Hi Hjob Hid.
  pose proof (updateMaintenance_own_job now _ _ i sub job Hnd Hjob Hid Hi) as Hown.
  split.
  - intros Hip. rewrite Hip in Hown. simpl in Hown.
    apply attempts_offline; [by rewrite Hperm|done|done].
  - intros Hnip. rewrite (bool_decide_eq_false_2 _ Hnip) in Hown. simpl in Hown.
    pose proof (attempts_sameButUsed order σ
                  (GridController.updateMaintenance now
                     (GridController.maintenanceList g)
                     (GridController.substations g)).2) as Hsame.
    destruct (Forall2_lookup_r _ _ _ _ _ Hsame Hown) as (sub' & Hsub' & _ & _ & Hon).
    exists sub'. by split.
Qed.

Lemma gating_with_one_job_each_witness :
  ∃ (σ' : gmap addr DemandRequest.t) (g' : GridController.t),
    GridController.runScheduler 10 Examples.maintained.1 Examples.maintained.2
      = Some (σ', g')
    ∧ GridController.substations g' !! 0%nat
      = Some (Substation.setOnline false (Substation.mk "S01" 50 0 true)).
Proof.
  destruct (gating_with_one_job_each 10
              Examples.maintained.1 Examples.maintained.2)
    as (σ' & g' & Hrun & _ & Hgate).
  - apply (bool_decide_unpack _). vm_compute. exact I.
  - repeat constructor.
  - exists σ', g'. split; [exact Hrun|].
    apply (Hgate 0%nat (Substation.mk "S01" 50 0 true)
             (MaintenanceJob.new "S01" 0 3600)); [reflexivity| |reflexivity..].
    vm_compute. left.
Defined.

(** * Amounts in double arithmetic *)

(** ** Comparisons and sums of doubles *)

Section double_facts.
Implicit Types (x y : float).

Lemma float_ltb_leb x y : (x <? y)%float = true → (x <=? y)%float = true.
Proof.
  rewrite FloatAxioms.ltb_spec, FloatAxioms.leb_spec. unfold SFltb, SFleb.
  by destruct (SFcompare _ _) as [[]|].
Qed.

(** [<=] is transitive through 0, whatever the operands are. *)
Lemma float_leb_through_zero x y :
  (x <=? 0)%float = true → (0 <=? y)%float = true → (x <=? y)%float = true.
Proof.
  rewrite !FloatAxioms.leb_spec.
  change (Prim2SF 0%float) with (S754_zero false).
  destruct (Prim2SF x) as [[]|[]| |[] ? ?], (Prim2SF y) as [[]|[]| |[] ? ?];
    unfold SFleb; simpl; congruence.
Qed.

Lemma float_zero_add_neg x : (x <? 0)%float = true → (0 + x)%float = x.
Proof.
  intros H. apply FloatAxioms.Prim2SF_inj. rewrite FloatAxioms.add_spec.
  rewrite FloatAxioms.ltb_spec in H.
  change (Prim2SF 0%float) with (S754_zero false) in *.
  destruct (Prim2SF x) as [[]|[]| |[] ? ?];
    unfold SFltb in H; simpl in *; congruence.
Qed.

Lemma float_neg_not_nonneg x : (x <? 0)%float = true → (0 <=? x)%float = false.
Proof.
  rewrite FloatAxioms.ltb_spec, FloatAxioms.leb_spec.
  change (Prim2SF 0%float) with (S754_zero false).
  destruct (Prim2SF x) as [[]|[]| |[] ? ?];
    unfold SFltb, SFleb; simpl; congruence.
Qed.

Lemma SFcompare_refl (f : spec_float) :
  f ≠ S754_nan → SFcompare f f = Some Eq.
Proof.
  destruct f as [[]|[]| |[] m e]; simpl; try congruence; intros _.
  - by rewrite Z.compare_refl, Pos.compare_cont_refl.
  - by rewrite Z.compare_refl, Pos.compare_cont_refl.
Qed.

(** A NaN, the one double that is not equal to itself, is below nothing. *)
Lemma float_nan_leb x y : (x =? x)%float = false → (x <=? y)%float = false.
Proof.
  rewrite FloatAxioms.eqb_spec, FloatAxioms.leb_spec. unfold SFeqb, SFleb.
  destruct (Prim2SF x) eqn:E;
    try (rewrite SFcompare_refl by congruence; congruence).
  reflexivity.
Qed.

(** A difference with a NaN is a NaN, and 0 is not below it. *)
Lemma float_sub_nan x y : (y =? y)%float = false → (0 <? x - y)%float = false.
Proof.
  rewrite FloatAxioms.eqb_spec, FloatAxioms.ltb_spec, FloatAxioms.sub_spec. unfold SFeqb, SFltb.
  destruct (Prim2SF y) eqn:E;
    try (rewrite SFcompare_refl by congruence; congruence).
  intros _. destruct (Prim2SF x) as [[]|[]| |[] ? ?]; reflexivity.
Qed.

Lemma float_max_zero x : (0 <=? SubstationF64.max 0 x)%float = true.
Proof.
  unfold SubstationF64.max. destruct (0 <? x)%float eqn:E.
  - by apply float_ltb_leb.
  - reflexivity.
Qed.

End double_facts.

(** ** Substation::allocate *)

(** C3, the claim as stated fails: the amount added to [used] is the
    rounded sum, and the guard compares with the rounded difference.  On a
    substation with 30 of 50 MW used, [allocate] of the positive amount
    2^-60 returns true and leaves [used] at 30.  With 0.1 used, [allocate]
    of 0.2 stores 0.30000000000000004, which is more than the two amounts
    together.  With 0.3 used, [allocate] of 49.7 returns true although the
    amount is more than capacity minus [used]. *)
Lemma C3_counterexample :
  (0 <? 0x1p-60)%float = true
  ∧ SubstationF64.allocate 0x1p-60 (SubstationF64.mk "S01" 50 30 true)
    = (SubstationF64.mk "S01" 50 30 true, true)
  ∧ SubstationF64.allocate 0x1.999999999999ap-3
      (SubstationF64.mk "S01" 50 0x1.999999999999ap-4 true)
    = (SubstationF64.mk "S01" 50 0x1.3333333333334p-2 true, true)
  ∧ (valueOf 0x1.999999999999ap-4 + valueOf 0x1.999999999999ap-3
     < valueOf 0x1.3333333333334p-2)%Q
  ∧ (SubstationF64.allocate 0x1.8d9999999999ap+5
       (SubstationF64.mk "S01" 50 0x1.3333333333333p-2 true)).2 = true
  ∧ (valueOf 50 - valueOf 0x1.3333333333333p-2
     < valueOf 0x1.8d9999999999ap+5)%Q.
Proof. repeat split; vm_compute; reflexivity. Qed.

(** C3, amended.  For every substation and every [mw], [allocate mw]
    returns true if and only if [mw <= available()] as doubles, where
    [available()] is the rounded difference [capacity - used] of an online
    substation and 0 of an offline one; when it returns true, [used] becomes
    the rounded sum [used + mw] and no other field changes; when it returns
    false, the substation is unchanged; and it returns false when [mw] is
    a NaN. *)
Theorem C3_allocate_in_double (s : SubstationF64.t) (mw : float) :
  ((SubstationF64.allocate mw s).2 = true
     ↔ (mw <=? SubstationF64.available s)%float = true)
  ∧ SubstationF64.available s
      = (if SubstationF64.online s
         then (SubstationF64.capacityMW s - SubstationF64.usedMW s)%float
         else 0%float)
  ∧ ((SubstationF64.allocate mw s).2 = true →
       (SubstationF64.allocate mw s).1
         = SubstationF64.mk (SubstationF64.id s) (SubstationF64.capacityMW s)
             (SubstationF64.usedMW s + mw)%float (SubstationF64.online s))
  ∧ ((SubstationF64.allocate mw s).2 = false →
       (SubstationF64.allocate mw s).1 = s)
  ∧ ((mw =? mw)%float = false → SubstationF64.allocate mw s = (s, false)).
Proof.
  unfold SubstationF64.allocate.
  destruct (mw <=? SubstationF64.available s)%float eqn:Hle; simpl;
    (split; [done|]); (split; [done|]); (split; [done|]); (split; [done|]);
    intros Hnan; [|done].
  by rewrite (float_nan_leb _ _ Hnan) in Hle.
Qed.

(** C9, the claim as stated fails: what is added to [used] is rounded.  On
    a substation with 30 of 50 MW used, [allocate] of the negative amount
    -2^-60 returns true and leaves [used] at 30. *)
Lemma C9_counterexample :
  (-0x1p-60 <? 0)%float = true
  ∧ (0 <=? SubstationF64.available (SubstationF64.mk "S01" 50 30 true))%float
    = true
  ∧ SubstationF64.allocate (-0x1p-60) (SubstationF64.mk "S01" 50 30 true)
    = (SubstationF64.mk "S01" 50 30 true, true)
  ∧ (valueOf 30 + valueOf (-0x1p-60) < valueOf 30)%Q.
Proof. repeat split; vm_compute; reflexivity. Qed.

(** C9, amended.  For [mw <= 0]: an offline substation has [available()]
    equal to 0; whenever [available()] is at least 0, [allocate mw] returns
    true and replaces [used] by the rounded sum [used + mw], no other field
    changing; so it returns true on every offline substation; and for a
    negative [mw] on an offline substation with nothing used it leaves
    [used] equal to [mw], below 0. *)
Theorem C9_allocate_nonpositive_in_double (s : SubstationF64.t) (mw : float) :
  (mw <=? 0)%float = true →
  (SubstationF64.online s = false → SubstationF64.available s = 0%float)
  ∧ ((0 <=? SubstationF64.available s)%float = true →
       SubstationF64.allocate mw s
         = (SubstationF64.mk (SubstationF64.id s) (SubstationF64.capacityMW s)
              (SubstationF64.usedMW s + mw)%float (SubstationF64.online s),
            true))
  ∧ (SubstationF64.online s = false →
       (SubstationF64.allocate mw s).2 = true)
  ∧ ((mw <? 0)%float = true → SubstationF64.online s = false →
       SubstationF64.usedMW s = 0%float →
       SubstationF64.usedMW (SubstationF64.allocate mw s).1 = mw
       ∧ (0 <=? SubstationF64.usedMW (SubstationF64.allocate mw s).1)%float
         = false).
Proof.
  intros Hmw.
  assert (Hok : (0 <=? SubstationF64.available s)%float = true →
          SubstationF64.allocate mw s
          = (SubstationF64.mk (SubstationF64.id s) (SubstationF64.capacityMW s)
               (SubstationF64.usedMW s + mw)%float (SubstationF64.online s),
             true)).
  { intros Hav. unfold SubstationF64.allocate.
    by rewrite (float_leb_through_zero _ _ Hmw Hav). }
  assert (Hoff : SubstationF64.online s = false →
          SubstationF64.available s = 0%float).
  { intros Hon. unfold SubstationF64.available. by rewrite Hon. }
  split; [exact Hoff|]. split; [exact Hok|]. split.
  - intros Hon. rewrite Hok; [done|]. by rewrite (Hoff Hon).
  - intros Hneg Hon Hused. rewrite Hok by (by rewrite (Hoff Hon)). simpl.
    rewrite Hused, (float_zero_add_neg _ Hneg).
    split; [done|]. by apply float_neg_not_nonneg.
Qed.

Lemma C9_allocate_nonpositive_in_double_witness :
  SubstationF64.allocate (-5)
      (SubstationF64.setOnline false (SubstationF64.new "S01" 50))
    = (SubstationF64.mk "S01" 50 (-5) false, true).
Proof.
  pose proof (C9_allocate_nonpositive_in_double
                (SubstationF64.setOnline false (SubstationF64.new "S01" 50))
                (-5) eq_refl) as (_ & H & _).
  exact (H eq_refl).
Defined.

(** ** Substation::deallocate *)

(** X2. [deallocate] changes only [used]; what it stores is the rounded
    difference [used - mw] when that is greater than 0, and 0 otherwise,
    also when the difference is a NaN; so after the call [used] is at
    least 0 and is not a NaN, whatever the substation and the amount, and
    a NaN amount leaves [used] at 0. *)
Theorem deallocate_floor (s : SubstationF64.t) (mw : float) :
  SubstationF64.id (SubstationF64.deallocate mw s) = SubstationF64.id s
  ∧ SubstationF64.capacityMW (SubstationF64.deallocate mw s)
      = SubstationF64.capacityMW s
  ∧ SubstationF64.online (SubstationF64.deallocate mw s)
      = SubstationF64.online s
  ∧ (0 <=? SubstationF64.usedMW (SubstationF64.deallocate mw s))%float = true
  ∧ SubstationF64.usedMW (SubstationF64.deallocate mw s)
      = (if (0 <? SubstationF64.usedMW s - mw)%float
         then (SubstationF64.usedMW s - mw)%float else 0%float)
  ∧ ((mw =? mw)%float = false →
       SubstationF64.usedMW (SubstationF64.deallocate mw s) = 0%float).
Proof.
  split; [done|]. split; [done|]. split; [done|].
  split; [apply float_max_zero|]. split; [reflexivity|].
  intros Hnan. simpl. unfold SubstationF64.max.
  by rewrite (float_sub_nan _ _ Hnan).
Qed.

(** ** The capacity invariant *)



